(** * Bounce-Function: the bounce easing generator of [bounce-function.js]

    A shallow embedding of [makeBounceFunction] and of the easing function
    it returns, in exact arithmetic: a JavaScript number is a rational, one
    of the two infinities, or NaN.  Rounding and signed zeros are outside
    this model; the special values are kept because the source can produce
    them ([0/0] in the table when the decay is [0]) and can receive them.

    The general theorems are about this exact model.  Module [B64] gives the
    same lines once more on binary64 floats, where every operation rounds
    as it does when the source runs; it is evaluated at concrete arguments
    to show where rounding separates the running code from exact
    arithmetic. *)

From Stdlib Require Import String QArith Qround Lqa ZArith List Bool Arith Lia.
From Stdlib Require PrimFloat FloatOps SpecFloat.
Import ListNotations.
Open Scope Q_scope.

(** ** Numbers *)

Inductive num : Type :=
| Fin (q : Q)
| PInf
| NInf
| NaN.

Definition Qltb (a b : Q) : bool := negb (Qle_bool b a).

(** [Math.pow] is only ever called with a loop counter as its exponent. *)
Fixpoint Qpow (q : Q) (n : nat) : Q :=
  match n with
  | O => 1
  | S k => q * Qpow q k
  end.

Module Num.

Definition inf (negative : bool) : num := if negative then NInf else PInf.

(** [a < b] *)
Definition lt (a b : num) : bool :=
  match a, b with
  | NaN, _ | _, NaN => false
  | Fin x, Fin y => Qltb x y
  | NInf, NInf => false
  | NInf, _ => true
  | PInf, _ => false
  | Fin _, PInf => true
  | Fin _, NInf => false
  end.

(** [a > b] *)
Definition gt (a b : num) : bool := lt b a.

(** [a >= b] *)
Definition ge (a b : num) : bool :=
  match a, b with
  | NaN, _ | _, NaN => false
  | _, _ => negb (lt a b)
  end.

(** [a === b] on two numbers *)
Definition seq (a b : num) : bool :=
  match a, b with
  | Fin x, Fin y => Qeq_bool x y
  | PInf, PInf | NInf, NInf => true
  | _, _ => false
  end.

Definition opp (a : num) : num :=
  match a with
  | Fin x => Fin (- x)
  | PInf => NInf
  | NInf => PInf
  | NaN => NaN
  end.

Definition add (a b : num) : num :=
  match a, b with
  | NaN, _ | _, NaN => NaN
  | Fin x, Fin y => Fin (x + y)
  | PInf, NInf | NInf, PInf => NaN
  | PInf, _ | _, PInf => PInf
  | NInf, _ | _, NInf => NInf
  end.

Definition sub (a b : num) : num := add a (opp b).

Definition mul (a b : num) : num :=
  match a, b with
  | NaN, _ | _, NaN => NaN
  | Fin x, Fin y => Fin (x * y)
  | Fin x, PInf | PInf, Fin x =>
      if Qeq_bool x 0 then NaN else inf (Qltb x 0)
  | Fin x, NInf | NInf, Fin x =>
      if Qeq_bool x 0 then NaN else inf (negb (Qltb x 0))
  | PInf, PInf | NInf, NInf => PInf
  | PInf, NInf | NInf, PInf => NInf
  end.

(** Division; a zero divisor counts as [+0]. *)
Definition div (a b : num) : num :=
  match a, b with
  | NaN, _ | _, NaN => NaN
  | Fin x, Fin y =>
      if Qeq_bool y 0
      then (if Qeq_bool x 0 then NaN else inf (Qltb x 0))
      else Fin (x / y)
  | Fin _, _ => Fin 0
  | PInf, Fin y => inf (Qltb y 0)
  | NInf, Fin y => inf (negb (Qltb y 0))
  | _, _ => NaN
  end.

(** [Math.pow(base, e)] for a counter [e]: anything to the power 0 is 1. *)
Definition pow (base : num) (e : nat) : num :=
  match e with
  | O => Fin 1
  | S _ =>
      match base with
      | Fin x => Fin (Qpow x e)
      | PInf => PInf
      | NInf => inf (Nat.odd e)
      | NaN => NaN
      end
  end.

(** Equality of values: rationals up to [==]. *)
Definition eq (a b : num) : Prop :=
  match a, b with
  | Fin x, Fin y => x == y
  | PInf, PInf | NInf, NInf | NaN, NaN => True
  | _, _ => False
  end.

End Num.

(** [a[i]] read as a number: a missing element is [undefined], which every
    use in the source (a comparison or an arithmetic operand) turns to NaN. *)
Definition arr_get (a : list num) (i : nat) : num := nth i a NaN.

(** ** Values and the conversions the source applies to its arguments *)

Inductive jsval : Type :=
| VUndefined
| VNull
| VBool (b : bool)
| VNum (n : num)
| VString (s : string)
| VObject (o : positive).

(** The conversion of strings and objects to numbers belongs to the language
    runtime; it is taken as a pair of functions, so an object converts the
    same way each time the loop compares it. *)
Class Runtime : Type := {
  StringToNumber : string -> num;
  ObjectToNumber : positive -> num
}.

Definition typeof (v : jsval) : string :=
  match v with
  | VUndefined => "undefined"
  | VNull => "object"
  | VBool _ => "boolean"
  | VNum _ => "number"
  | VString _ => "string"
  | VObject _ => "object"
  end.

(** [!v] is [negb (truthy v)]. *)
Definition truthy (v : jsval) : bool :=
  match v with
  | VUndefined | VNull => false
  | VBool b => b
  | VNum (Fin x) => negb (Qeq_bool x 0)
  | VNum NaN => false
  | VNum _ => true
  | VString s => negb (String.eqb s EmptyString)
  | VObject _ => true
  end.

Definition is_undefined (v : jsval) : bool :=
  match v with
  | VUndefined => true
  | _ => false
  end.

Definition ToNumber `{Runtime} (v : jsval) : num :=
  match v with
  | VUndefined => NaN
  | VNull => Fin 0
  | VBool b => if b then Fin 1 else Fin 0
  | VNum n => n
  | VString s => StringToNumber s
  | VObject o => ObjectToNumber o
  end.

(** ** [makeBounceFunction] *)

(** Lines 15-19: the decay ratio after defaulting and clamping.  The
    literals [0.5] and [0.01] stand for the rationals 1/2 and 1/100. *)
Definition normalise_timeBetweenBounces `{Runtime} (timeBetweenBounces : jsval) : jsval :=
  if is_undefined timeBetweenBounces
     || negb (String.eqb (typeof timeBetweenBounces) "number")
     || Num.ge (ToNumber timeBetweenBounces) (Fin 1)
  then VNum (Fin (1#2))
  else if Num.lt (ToNumber timeBetweenBounces) (Fin 0)
       then VNum (Fin 0)
       else timeBetweenBounces.

(** Lines 22-24: the threshold; the type test reads the decay ratio. *)
Definition normalise_bounceBackThreshold
    (timeBetweenBounces bounceBackThreshold : jsval) : jsval :=
  if negb (truthy bounceBackThreshold)
     || negb (String.eqb (typeof timeBetweenBounces) "number")
  then VNum (Fin (1#100))
  else bounceBackThreshold.

(** Lines 26-32: the [while] loop, with the iterations left as fuel.  The
    result is the final value of [i]. *)
Fixpoint bounce_loop (fuel : nat) (timeBetweenBounces bounceBackThreshold : num)
    (howFarUpItWillBounce : num) (i : nat) : option nat :=
  match fuel with
  | O => None
  | S fuel' =>
      if Num.gt howFarUpItWillBounce bounceBackThreshold
      then bounce_loop fuel' timeBetweenBounces bounceBackThreshold
             (Num.pow timeBetweenBounces (2 * i)) (S i)
      else Some i
  end.

(** Lines 35-38. *)
Definition total_time (timeBetweenBounces : num) (numberOfBounces : nat) : num :=
  fold_left
    (fun totalTime i => Num.add totalTime (Num.mul (Num.pow timeBetweenBounces i) (Fin 2)))
    (List.seq 1 numberOfBounces) (Fin 1).

(** The variables the table loop of lines 41-53 updates. *)
Record table : Type := {
  lastBreakPoint : num;
  timeBreakPoints : list num;
  timeHalfwayPoints : list num;
  normalisingFactors : list num;
  normalisingConstants : list num
}.

(** Lines 41-45. *)
Definition table_init (totalTime : num) : table :=
  let timeBreakPoints := [Num.div (Fin 1) totalTime] in
  {| lastBreakPoint := arr_get timeBreakPoints 0;
     timeBreakPoints := timeBreakPoints;
     timeHalfwayPoints := [Fin 0];
     normalisingFactors :=
       [Num.div (Fin 1)
          (Num.mul (Num.div (Fin 1) totalTime) (Num.div (Fin 1) totalTime))];
     normalisingConstants := [Fin 0] |}.

(** Lines 47-52: one pass of the loop body, for index [i]. *)
Definition table_step (timeBetweenBounces totalTime : num) (t : table) (i : nat) : table :=
  let lastBreakPoint :=
    Num.add (lastBreakPoint t)
      (Num.mul (Num.div (Num.pow timeBetweenBounces i) totalTime) (Fin 2)) in
  let timeBreakPoints := timeBreakPoints t ++ [lastBreakPoint] in
  let timeHalf :=
    Num.div (Num.sub lastBreakPoint (arr_get timeBreakPoints (i - 1))) (Fin 2) in
  let timeHalfwayPoints :=
    timeHalfwayPoints t ++ [Num.add timeHalf (arr_get timeBreakPoints (i - 1))] in
  let normalisingConstants :=
    normalisingConstants t ++ [Num.sub (Fin 1) (Num.pow timeBetweenBounces (2 * i))] in
  let normalisingFactors :=
    normalisingFactors t
      ++ [Num.div (Num.sub (Fin 1) (arr_get normalisingConstants i))
            (Num.mul timeHalf timeHalf)] in
  {| lastBreakPoint := lastBreakPoint;
     timeBreakPoints := timeBreakPoints;
     timeHalfwayPoints := timeHalfwayPoints;
     normalisingFactors := normalisingFactors;
     normalisingConstants := normalisingConstants |}.

(** Lines 46-53. *)
Definition table_loop (timeBetweenBounces totalTime : num) (numberOfBounces : nat) : table :=
  fold_left (table_step timeBetweenBounces totalTime)
    (List.seq 1 numberOfBounces) (table_init totalTime).

(** What the returned closure captures. *)
Record profile : Type := {
  numberOfBounces : nat;
  totalTime : num;
  tables : table
}.

(** Lines 35-53 for a given bounce count. *)
Definition precalculate (timeBetweenBounces : num) (numberOfBounces : nat) : profile :=
  let totalTime := total_time timeBetweenBounces numberOfBounces in
  {| numberOfBounces := numberOfBounces;
     totalTime := totalTime;
     tables := table_loop timeBetweenBounces totalTime numberOfBounces |}.

(** Lines 26-53 on the normalised parameters, as numbers. *)
Definition build (fuel : nat) (timeBetweenBounces bounceBackThreshold : num) : option profile :=
  match bounce_loop fuel timeBetweenBounces bounceBackThreshold (Fin 1) 0 with
  | Some numberOfBounces => Some (precalculate timeBetweenBounces numberOfBounces)
  | None => None
  end.

(** The whole builder.  Its result is what the returned closure captures,
    and [easing] below is the closure's body; [None] means the fuel did not
    cover the [while] loop. *)
Definition makeBounceFunction `{Runtime} (fuel : nat)
    (timeBetweenBounces bounceBackThreshold : jsval) : option profile :=
  let timeBetweenBounces := normalise_timeBetweenBounces timeBetweenBounces in
  let bounceBackThreshold :=
    normalise_bounceBackThreshold timeBetweenBounces bounceBackThreshold in
  build fuel (ToNumber timeBetweenBounces) (ToNumber bounceBackThreshold).

(** ** The easing function (lines 56-66), called on a number *)

(** Line 63: [x -= timeHalfwayPoints[i]] updates [x] before the second factor reads it. *)
Definition parabola (t : table) (i : nat) (x : num) : num :=
  let x := Num.sub x (arr_get (timeHalfwayPoints t) i) in
  Num.add (Num.mul (Num.mul (arr_get (normalisingFactors t) i) x) x)
    (arr_get (normalisingConstants t) i).

(** Lines 61-65 over the remaining indices; falling off the end returns [undefined]. *)
Fixpoint scan (t : table) (x : num) (indices : list nat) : jsval :=
  match indices with
  | [] => VUndefined
  | i :: rest =>
      if Num.lt x (arr_get (timeBreakPoints t) i)
      then VNum (parabola t i x)
      else scan t x rest
  end.

Definition easing (p : profile) (x : num) : jsval :=
  if Num.seq x (Fin 1)
  then VNum (Fin 1)
  else scan (tables p) x (List.seq 0 (S (numberOfBounces p))).

(** ** Vocabulary of the statements *)

(** The builder returns [p] on these arguments. *)
Definition builds (timeBetweenBounces bounceBackThreshold : num) (p : profile) : Prop :=
  exists fuel, build fuel timeBetweenBounces bounceBackThreshold = Some p.

(** The builder returns [p] on the raw arguments. *)
Definition returns `{Runtime} (timeBetweenBounces bounceBackThreshold : jsval)
    (p : profile) : Prop :=
  exists fuel, makeBounceFunction fuel timeBetweenBounces bounceBackThreshold = Some p.

(** Building and then calling the result once. *)
Definition bounce `{Runtime} (fuel : nat) (timeBetweenBounces bounceBackThreshold : jsval)
    (x : num) : option jsval :=
  option_map (fun p => easing p x)
    (makeBounceFunction fuel timeBetweenBounces bounceBackThreshold).

(** A runtime whose string and object conversions all give NaN. *)
Definition runtime0 : Runtime :=
  {| StringToNumber := fun _ => NaN; ObjectToNumber := fun _ => NaN |}.

(** A threshold is positive when [0 < threshold] holds of its number. *)
Definition positive (th : num) : Prop := Num.lt (Fin 0) th = true.

(** A returned value that is the rational [r]. *)
Definition is_number (v : jsval) (r : Q) : Prop :=
  match v with
  | VNum (Fin x) => x == r
  | _ => False
  end.

(** A returned value that is a rational between [lo] and [hi]. *)
Definition is_between (v : jsval) (lo hi : Q) : Prop :=
  match v with
  | VNum (Fin x) => lo <= x <= hi
  | _ => False
  end.

(** ** Closed forms of the table

    The table over the rationals, for a decay ratio [q] and a total time
    [T]; the lemmas below show that the loops compute exactly these. *)

(** [totalTime] *)
Definition qtotal (q : Q) (n : nat) : Q :=
  fold_left (fun t i => t + Qpow q i * 2) (List.seq 1 n) 1.

(** [timeBreakPoints[i]] *)
Fixpoint qbreak (q T : Q) (i : nat) : Q :=
  match i with
  | O => 1 / T
  | S j => qbreak q T j + Qpow q i / T * 2
  end.

(** [timeHalf] of pass [j + 1] *)
Definition qhalf (q T : Q) (j : nat) : Q := (qbreak q T (S j) - qbreak q T j) / 2.

(** [timeHalfwayPoints[i]] *)
Definition qvertex (q T : Q) (i : nat) : Q :=
  match i with
  | O => 0
  | S j => qhalf q T j + qbreak q T j
  end.

(** [normalisingConstants[i]] *)
Definition qconst (q : Q) (i : nat) : Q :=
  match i with
  | O => 0
  | S _ => 1 - Qpow q (2 * i)
  end.

(** [normalisingFactors[i]]; the division is the source's, which meets
    [0/0] when the decay ratio is 0. *)
Definition nfactor (q T : Q) (i : nat) : num :=
  match i with
  | O => Num.div (Fin 1) (Fin (1 / T * (1 / T)))
  | S j => Num.div (Fin (1 - qconst q i)) (Fin (qhalf q T j * qhalf q T j))
  end.

(** [normalisingFactors[i]] when the division is defined. *)
Definition qfactor (q T : Q) (i : nat) : Q :=
  match i with
  | O => 1 / (1 / T * (1 / T))
  | S j => (1 - qconst q i) / (qhalf q T j * qhalf q T j)
  end.

Definition closed_table (q T : Q) (n : nat) : table :=
  {| lastBreakPoint := Fin (qbreak q T n);
     timeBreakPoints := map (fun i => Fin (qbreak q T i)) (List.seq 0 (S n));
     timeHalfwayPoints := map (fun i => Fin (qvertex q T i)) (List.seq 0 (S n));
     normalisingFactors := map (nfactor q T) (List.seq 0 (S n));
     normalisingConstants := map (fun i => Fin (qconst q i)) (List.seq 0 (S n)) |}.

(** ** The same code in binary64

    Lines 26-66 on the kernel's binary64 floats: each [+], [-], [*] and [/]
    rounds to nearest as the source's does, comparisons are the IEEE ones,
    and the loop counters stay naturals.  The definitions follow the exact
    ones line by line. *)

Module B64.

Import PrimFloat.

(** What the easing function returns: a number, or [undefined]. *)
Inductive result : Type :=
| Number (f : float)
| Undefined.

(** [Math.pow(base, e)] for a counter [e].  The language leaves the accuracy
    of [Math.pow] to the implementation; here it is the product of [e]
    factors, rounded after each one.  Wherever every power up to [e] is a
    binary64 number this is the exact power; [exact_pow] checks that. *)
Fixpoint pow (base : float) (e : nat) : float :=
  match e with
  | O => 1%float
  | S k => (base * pow base k)%float
  end.

Definition arr_get (a : list float) (i : nat) : float := nth i a nan.

Fixpoint bounce_loop (fuel : nat) (timeBetweenBounces bounceBackThreshold : float)
    (howFarUpItWillBounce : float) (i : nat) : option nat :=
  match fuel with
  | O => None
  | S fuel' =>
      if (bounceBackThreshold <? howFarUpItWillBounce)%float
      then bounce_loop fuel' timeBetweenBounces bounceBackThreshold
             (pow timeBetweenBounces (2 * i)) (S i)
      else Some i
  end.

Definition total_time (timeBetweenBounces : float) (numberOfBounces : nat) : float :=
  fold_left
    (fun totalTime i => (totalTime + pow timeBetweenBounces i * 2)%float)
    (List.seq 1 numberOfBounces) 1%float.

Record table : Type := {
  lastBreakPoint : float;
  timeBreakPoints : list float;
  timeHalfwayPoints : list float;
  normalisingFactors : list float;
  normalisingConstants : list float
}.

Definition table_init (totalTime : float) : table :=
  let timeBreakPoints := [(1 / totalTime)%float] in
  {| lastBreakPoint := arr_get timeBreakPoints 0;
     timeBreakPoints := timeBreakPoints;
     timeHalfwayPoints := [0%float];
     normalisingFactors := [(1 / ((1 / totalTime) * (1 / totalTime)))%float];
     normalisingConstants := [0%float] |}.

Definition table_step (timeBetweenBounces totalTime : float) (t : table) (i : nat) : table :=
  let lastBreakPoint :=
    (lastBreakPoint t + pow timeBetweenBounces i / totalTime * 2)%float in
  let timeBreakPoints := timeBreakPoints t ++ [lastBreakPoint] in
  let timeHalf := ((lastBreakPoint - arr_get timeBreakPoints (i - 1)) / 2)%float in
  let timeHalfwayPoints :=
    timeHalfwayPoints t ++ [(timeHalf + arr_get timeBreakPoints (i - 1))%float] in
  let normalisingConstants :=
    normalisingConstants t ++ [(1 - pow timeBetweenBounces (2 * i))%float] in
  let normalisingFactors :=
    normalisingFactors t
      ++ [((1 - arr_get normalisingConstants i) / (timeHalf * timeHalf))%float] in
  {| lastBreakPoint := lastBreakPoint;
     timeBreakPoints := timeBreakPoints;
     timeHalfwayPoints := timeHalfwayPoints;
     normalisingFactors := normalisingFactors;
     normalisingConstants := normalisingConstants |}.

Definition table_loop (timeBetweenBounces totalTime : float) (numberOfBounces : nat) : table :=
  fold_left (table_step timeBetweenBounces totalTime)
    (List.seq 1 numberOfBounces) (table_init totalTime).

Record profile : Type := {
  numberOfBounces : nat;
  totalTime : float;
  tables : table
}.

Definition precalculate (timeBetweenBounces : float) (numberOfBounces : nat) : profile :=
  let totalTime := total_time timeBetweenBounces numberOfBounces in
  {| numberOfBounces := numberOfBounces;
     totalTime := totalTime;
     tables := table_loop timeBetweenBounces totalTime numberOfBounces |}.

Definition build (fuel : nat) (timeBetweenBounces bounceBackThreshold : float) : option profile :=
  match bounce_loop fuel timeBetweenBounces bounceBackThreshold 1%float 0 with
  | Some numberOfBounces => Some (precalculate timeBetweenBounces numberOfBounces)
  | None => None
  end.

Definition parabola (t : table) (i : nat) (x : float) : float :=
  let x := (x - arr_get (timeHalfwayPoints t) i)%float in
  (arr_get (normalisingFactors t) i * x * x + arr_get (normalisingConstants t) i)%float.

Fixpoint scan (t : table) (x : float) (indices : list nat) : result :=
  match indices with
  | [] => Undefined
  | i :: rest =>
      if (x <? arr_get (timeBreakPoints t) i)%float
      then Number (parabola t i x)
      else scan t x rest
  end.

Definition easing (p : profile) (x : float) : result :=
  if (x =? 1)%float
  then Number 1%float
  else scan (tables p) x (List.seq 0 (S (numberOfBounces p))).

(** The rational a finite float stands for. *)
Definition exact (f : float) : option Q :=
  match FloatOps.Prim2SF f with
  | SpecFloat.S754_zero _ => Some 0
  | SpecFloat.S754_finite s m e =>
      Some ((if s then -1 else 1) * inject_Z (Zpos m) * Qpower 2 e)
  | _ => None
  end.

(** [pow base e] is the exact power of the rational [q]. *)
Definition exact_pow (base : float) (q : Q) (e : nat) : bool :=
  match exact (pow base e) with
  | Some v => Qeq_bool v (Qpow q e)
  | None => false
  end.

End B64.

(** ** Rational arithmetic *)

Lemma Qltb_true (a b : Q) : Qltb a b = true <-> a < b.
Proof.
  unfold Qltb. rewrite negb_true_iff, <- not_true_iff_false, Qle_bool_iff.
  split; [apply Qnot_le_lt | apply Qlt_not_le].
Qed.

Lemma Qltb_false (a b : Q) : Qltb a b = false <-> b <= a.
Proof.
  unfold Qltb. rewrite negb_false_iff. apply Qle_bool_iff.
Qed.

Lemma Qeq_bool_false (a b : Q) : Qeq_bool a b = false <-> ~ a == b.
Proof.
  rewrite <- not_true_iff_false, Qeq_bool_iff. tauto.
Qed.

#[export] Instance Qpow_comp : Proper (Qeq ==> eq ==> Qeq) Qpow.
Proof.
  intros a b Hab n m <-. induction n as [|n IH]; simpl.
  - reflexivity.
  - rewrite IH, Hab. reflexivity.
Qed.

Lemma Qpow_nonneg (q : Q) (n : nat) : 0 <= q -> 0 <= Qpow q n.
Proof.
  intros Hq. induction n as [|n IH]; simpl; [lra | nra].
Qed.

Lemma Qpow_pos (q : Q) (n : nat) : 0 < q -> 0 < Qpow q n.
Proof.
  intros Hq. induction n as [|n IH]; simpl; [lra | nra].
Qed.

Lemma Qpow_le_1 (q : Q) (n : nat) : 0 <= q <= 1 -> Qpow q n <= 1.
Proof.
  intros Hq. pose proof (Qpow_nonneg q n (proj1 Hq)) as H0.
  induction n as [|n IH]; simpl in *; [lra|].
  pose proof (Qpow_nonneg q n (proj1 Hq)). specialize (IH H). nra.
Qed.

Lemma Qpow_lt_1 (q : Q) (n : nat) : 0 <= q < 1 -> Qpow q (S n) < 1.
Proof.
  intros Hq. simpl.
  assert (Qpow q n <= 1) by (apply Qpow_le_1; lra).
  pose proof (Qpow_nonneg q n (proj1 Hq)). nra.
Qed.

Lemma Qpow_add (q : Q) (a b : nat) : Qpow q (a + b) == Qpow q a * Qpow q b.
Proof.
  induction a as [|a IH]; simpl; [ring | rewrite IH; ring].
Qed.

Lemma Qpow_double (q : Q) (i : nat) : Qpow q (2 * i) == Qpow q i * Qpow q i.
Proof.
  replace (2 * i)%nat with (i + i)%nat by lia. apply Qpow_add.
Qed.

Lemma Qpow_zero (q : Q) (n : nat) : q == 0 -> Qpow q (S n) == 0.
Proof.
  intros Hq. simpl. rewrite Hq. ring.
Qed.

Lemma Qpow_antitone (q : Q) (a b : nat) :
  0 <= q <= 1 -> (a <= b)%nat -> Qpow q b <= Qpow q a.
Proof.
  intros Hq Hab. replace b with (a + (b - a))%nat by lia.
  rewrite Qpow_add.
  pose proof (Qpow_nonneg q a (proj1 Hq)).
  pose proof (Qpow_nonneg q (b - a) (proj1 Hq)).
  pose proof (Qpow_le_1 q (b - a) Hq). nra.
Qed.

(** [n * (1 - q) * q^n <= 1 - q^n]: the powers of a ratio below 1 fall under
    every positive bound. *)
Lemma Qpow_decay (q : Q) (n : nat) :
  0 <= q < 1 ->
  inject_Z (Z.of_nat n) * (1 - q) * Qpow q n <= 1 - Qpow q n.
Proof.
  intros Hq. induction n as [|n IH].
  - simpl. change (inject_Z 0) with 0. lra.
  - rewrite Nat2Z.inj_succ. unfold Z.succ. rewrite inject_Z_plus.
    change (inject_Z 1) with 1. simpl Qpow.
    pose proof (Qpow_nonneg q n (proj1 Hq)) as Hp.
    assert (Qpow q n <= 1) as Hp1 by (apply Qpow_le_1; lra).
    set (N := inject_Z (Z.of_nat n)) in *.
    set (P := Qpow q n) in *.
    assert (0 <= N) as HN.
    { unfold N. change 0 with (inject_Z 0). rewrite <- Zle_Qle. lia. }
    assert (q * (N * (1 - q) * P) <= q * (1 - P)) as H1
      by (clear - IH Hq; nra).
    assert (0 <= (1 - q) * (1 - q * P)) as H2
      by (apply Qmult_le_0_compat; nra).
    lra.
Qed.

Lemma Qpow_below (q t : Q) :
  0 <= q < 1 -> 0 < t -> exists n : nat, Qpow q n <= t.
Proof.
  intros Hq Ht.
  set (x := 1 / (t * (1 - q))).
  assert (0 < t * (1 - q)) as Hden by nra.
  assert (0 < x) as Hx.
  { unfold x. apply Qlt_shift_div_l; lra. }
  exists (Z.to_nat (Qceiling x)).
  pose proof (Qle_ceiling x) as Hc.
  set (n := Z.to_nat (Qceiling x)).
  assert (x <= inject_Z (Z.of_nat n)) as Hn.
  { unfold n. rewrite Z2Nat.id; [exact Hc|].
    rewrite Zle_Qle. change (inject_Z 0) with 0. lra. }
  pose proof (Qpow_decay q n Hq) as Hd.
  pose proof (Qpow_nonneg q n (proj1 Hq)) as Hp.
  assert (x * (t * (1 - q)) == 1) as Hxe.
  { unfold x. field. split; lra. }
  set (N := inject_Z (Z.of_nat n)) in *.
  set (P := Qpow q n) in *.
  assert (N * (1 - q) * P <= 1) as H1 by lra.
  assert (0 <= (N - x) * (t * (1 - q)) * P) as H2.
  { apply Qmult_le_0_compat; [|exact Hp].
    apply Qmult_le_0_compat; lra. }
  assert (P * (x * (t * (1 - q))) == P) as H3 by (rewrite Hxe; ring).
  nra.
Qed.

(** ** The bounce-count loop *)

Lemma pow_Fin (q : Q) (n : nat) : Num.pow (Fin q) n = Fin (Qpow q n).
Proof.
  destruct n; reflexivity.
Qed.

Lemma div_Fin (a b : Q) :
  Qeq_bool b 0 = false -> Num.div (Fin a) (Fin b) = Fin (a / b).
Proof.
  intros H. unfold Num.div. rewrite H. reflexivity.
Qed.

Lemma bounce_loop_ge (fuel : nat) (d th h : num) (i n : nat) :
  bounce_loop fuel d th h i = Some n -> (i <= n)%nat.
Proof.
  revert h i. induction fuel as [|fuel IH]; intros h i; simpl.
  - discriminate.
  - destruct (Num.gt h th).
    + intros H. apply IH in H. lia.
    + intros [= <-]. lia.
Qed.

Lemma bounce_loop_more (fuel k : nat) (d th h : num) (i n : nat) :
  bounce_loop fuel d th h i = Some n ->
  bounce_loop (fuel + k) d th h i = Some n.
Proof.
  revert h i. induction fuel as [|fuel IH]; intros h i; simpl.
  - discriminate.
  - destruct (Num.gt h th); [apply IH | trivial].
Qed.

Lemma bounce_loop_det (f1 f2 : nat) (d th h : num) (i n1 n2 : nat) :
  bounce_loop f1 d th h i = Some n1 ->
  bounce_loop f2 d th h i = Some n2 ->
  n1 = n2.
Proof.
  intros H1 H2.
  apply (bounce_loop_more _ f2) in H1.
  apply (bounce_loop_more _ f1) in H2.
  rewrite Nat.add_comm in H2. congruence.
Qed.

(** The loop stops once a computed height is at or under the threshold. *)
Lemma bounce_loop_reaches (q t : Q) (m : nat) :
  forall (i : nat) (h : num),
    Qpow q (2 * (i + m)) <= t ->
    exists fuel n, bounce_loop fuel (Fin q) (Fin t) h i = Some n.
Proof.
  induction m as [|m IH]; intros i h Hle.
  - destruct (Num.gt h (Fin t)) eqn:Hgt.
    + exists 2%nat, (S i). cbn [bounce_loop]. rewrite Hgt, pow_Fin.
      replace (i + 0)%nat with i in Hle by lia.
      apply Qltb_false in Hle. unfold Num.gt, Num.lt. rewrite Hle. reflexivity.
    + exists 1%nat, i. cbn [bounce_loop]. rewrite Hgt. reflexivity.
  - destruct (Num.gt h (Fin t)) eqn:Hgt.
    + destruct (IH (S i) (Num.pow (Fin q) (2 * i))) as (fuel & n & Hn).
      { replace (S i + m)%nat with (i + S m)%nat by lia. exact Hle. }
      exists (S fuel), n. cbn [bounce_loop]. rewrite Hgt. exact Hn.
    + exists 1%nat, i. cbn [bounce_loop]. rewrite Hgt. reflexivity.
Qed.

Lemma bounce_loop_halts (q : Q) (th h : num) (i : nat) :
  0 <= q < 1 -> positive th ->
  exists fuel n, bounce_loop fuel (Fin q) th h i = Some n.
Proof.
  intros Hq Hth. destruct th as [t| | |]; try discriminate.
  - apply Qltb_true in Hth.
    destruct (Qpow_below q t Hq Hth) as [n Hn].
    apply (bounce_loop_reaches q t n).
    apply Qle_trans with (Qpow q n); [|exact Hn].
    apply Qpow_antitone; [lra | lia].
  - exists 1%nat, i. cbn [bounce_loop]. destruct h; reflexivity.
Qed.

(** With a threshold at or under 0 and a decay above 0 the loop never ends. *)
Lemma bounce_loop_diverges (q : Q) (th : num) :
  0 < q -> Num.ge (Fin 0) th = true ->
  forall (fuel i : nat) (x : Q),
    0 < x -> bounce_loop fuel (Fin q) th (Fin x) i = None.
Proof.
  intros Hq Hth. induction fuel as [|fuel IH]; intros i x Hx; cbn [bounce_loop].
  - reflexivity.
  - assert (Num.gt (Fin x) th = true) as ->.
    { destruct th as [t| | |]; try discriminate; [|reflexivity].
      unfold Num.ge, Num.lt in Hth. rewrite negb_true_iff in Hth.
      apply Qltb_false in Hth. apply Qltb_true. lra. }
    rewrite pow_Fin. apply IH. apply Qpow_pos, Hq.
Qed.

Lemma builds_det (d th : num) (p p' : profile) :
  builds d th p -> builds d th p' -> p = p'.
Proof.
  intros [f1 H1] [f2 H2]. unfold build in *.
  destruct (bounce_loop f1 d th (Fin 1) 0) as [n1|] eqn:E1; [|discriminate].
  destruct (bounce_loop f2 d th (Fin 1) 0) as [n2|] eqn:E2; [|discriminate].
  rewrite (bounce_loop_det _ _ _ _ _ _ _ _ E1 E2) in H1. congruence.
Qed.

Lemma builds_precalculate (d th : num) (p : profile) :
  builds d th p -> p = precalculate d (numberOfBounces p).
Proof.
  intros [fuel H]. unfold build in H.
  destruct (bounce_loop fuel d th (Fin 1) 0); [|discriminate].
  injection H as <-. reflexivity.
Qed.

Lemma builds_halts (q : Q) (th : num) :
  0 <= q < 1 -> positive th -> exists p, builds (Fin q) th p.
Proof.
  intros Hq Hth.
  destruct (bounce_loop_halts q th (Fin 1) 0 Hq Hth) as (fuel & n & Hn).
  exists (precalculate (Fin q) n), fuel. unfold build. rewrite Hn. reflexivity.
Qed.

Lemma total_time_Fin (q : Q) (n : nat) : total_time (Fin q) n = Fin (qtotal q n).
Proof.
  unfold total_time, qtotal.
  assert (forall l t0,
    fold_left
      (fun totalTime i => Num.add totalTime (Num.mul (Num.pow (Fin q) i) (Fin 2)))
      l (Fin t0)
    = Fin (fold_left (fun t i => t + Qpow q i * 2) l t0)) as G.
  { induction l as [|i l IH]; intros t0; cbn [fold_left].
    - reflexivity.
    - rewrite pow_Fin. apply IH. }
  apply G.
Qed.

Lemma qtotal_S (q : Q) (n : nat) :
  qtotal q (S n) = qtotal q n + Qpow q (S n) * 2.
Proof.
  unfold qtotal. rewrite seq_S, fold_left_app. reflexivity.
Qed.

Lemma qtotal_ge_1 (q : Q) (n : nat) : 0 <= q -> 1 <= qtotal q n.
Proof.
  intros Hq. induction n as [|n IH].
  - unfold qtotal. simpl. lra.
  - rewrite qtotal_S. pose proof (Qpow_nonneg q (S n) Hq). lra.
Qed.

Lemma qtotal_zero (q : Q) (n : nat) : q == 0 -> qtotal q n == 1.
Proof.
  intros Hq. induction n as [|n IH].
  - reflexivity.
  - rewrite qtotal_S, IH, (Qpow_zero q n Hq). ring.
Qed.

Lemma qtotal_nonzero (q : Q) (n : nat) : 0 <= q -> Qeq_bool (qtotal q n) 0 = false.
Proof.
  intros Hq. apply Qeq_bool_false. pose proof (qtotal_ge_1 q n Hq). lra.
Qed.

Lemma arr_get_map_seq (f : nat -> num) (k i : nat) :
  (i < k)%nat -> arr_get (map f (List.seq 0 k)) i = f i.
Proof.
  intros Hi. unfold arr_get.
  rewrite (nth_indep _ NaN (f 0%nat)) by (rewrite length_map, length_seq; exact Hi).
  rewrite map_nth, seq_nth by exact Hi. reflexivity.
Qed.

Lemma arr_get_app_l (a b : list num) (i : nat) :
  (i < length a)%nat -> arr_get (a ++ b) i = arr_get a i.
Proof.
  intros Hi. unfold arr_get. apply app_nth1, Hi.
Qed.

Lemma arr_get_app_last (a : list num) (x : num) (i : nat) :
  i = length a -> arr_get (a ++ [x]) i = x.
Proof.
  intros ->. unfold arr_get. rewrite app_nth2, Nat.sub_diag by lia. reflexivity.
Qed.

Lemma map_seq_S (f : nat -> num) (k : nat) :
  map f (List.seq 0 k) ++ [f k] = map f (List.seq 0 (S k)).
Proof.
  rewrite seq_S, map_app. reflexivity.
Qed.

Section Table.

Variables q T : Q.
Hypothesis T_nonzero : Qeq_bool T 0 = false.

Lemma table_loop_S (d tt : num) (n : nat) :
  table_loop d tt (S n) = table_step d tt (table_loop d tt n) (S n).
Proof.
  unfold table_loop. rewrite seq_S, fold_left_app. reflexivity.
Qed.

Lemma table_loop_closed (n : nat) :
  table_loop (Fin q) (Fin T) n = closed_table q T n.
Proof.
  induction n as [|n IH].
  - unfold table_loop, table_init, closed_table. cbn [List.seq fold_left map].
    unfold arr_get, Num.div, Num.mul. cbn [nth]. rewrite T_nonzero.
    reflexivity.
  - rewrite table_loop_S, IH. unfold table_step, closed_table.
    cbn [lastBreakPoint timeBreakPoints timeHalfwayPoints
         normalisingFactors normalisingConstants].
    rewrite pow_Fin, pow_Fin.
    replace (S n - 1)%nat with n by lia.
    rewrite arr_get_app_l by (rewrite length_map, length_seq; lia).
    rewrite arr_get_map_seq by lia.
    rewrite arr_get_app_last by (rewrite length_map, length_seq; reflexivity).
    rewrite !(div_Fin _ T) by exact T_nonzero.
    cbn [Num.mul Num.add Num.sub Num.opp].
    rewrite !(div_Fin _ 2) by reflexivity.
    cbn [Num.mul Num.add Num.sub Num.opp].
    rewrite <- !map_seq_S. reflexivity.
Qed.

End Table.

Section ClosedForms.

Variables q T : Q.
Hypothesis q_nonneg : 0 <= q.
Hypothesis T_positive : 0 < T.

Lemma qbreak_total (i : nat) : qbreak q T i * T == qtotal q i.
Proof.
  induction i as [|i IH].
  - unfold qtotal. simpl. field. lra.
  - rewrite qtotal_S, <- IH. cbn [qbreak]. field. lra.
Qed.

Lemma qhalf_eq (j : nat) : qhalf q T j == Qpow q (S j) / T.
Proof.
  unfold qhalf. cbn [qbreak]. field. lra.
Qed.

Lemma qhalf_nonneg (j : nat) : 0 <= qhalf q T j.
Proof.
  rewrite qhalf_eq. apply Qle_shift_div_l; [exact T_positive|].
  pose proof (Qpow_nonneg q (S j) q_nonneg). lra.
Qed.

Lemma qhalf_pos (j : nat) : 0 < q -> 0 < qhalf q T j.
Proof.
  intros Hq. rewrite qhalf_eq. apply Qlt_shift_div_l; [exact T_positive|].
  pose proof (Qpow_pos q (S j) Hq). lra.
Qed.

Lemma qhalf_zero (j : nat) : q == 0 -> qhalf q T j == 0.
Proof.
  intros Hq. rewrite qhalf_eq, (Qpow_zero q j Hq). field. lra.
Qed.

Lemma qbreak_S (j : nat) : qbreak q T (S j) == qbreak q T j + 2 * qhalf q T j.
Proof.
  unfold qhalf. field.
Qed.

Lemma qbreak_le (i j : nat) : (i <= j)%nat -> qbreak q T i <= qbreak q T j.
Proof.
  induction 1 as [|j Hij IH].
  - lra.
  - rewrite qbreak_S. pose proof (qhalf_nonneg j). lra.
Qed.

Lemma qbreak_lt (i j : nat) : 0 < q -> (i < j)%nat -> qbreak q T i < qbreak q T j.
Proof.
  intros Hq Hij. apply Qlt_le_trans with (qbreak q T (S i)).
  - rewrite qbreak_S. pose proof (qhalf_pos i Hq). lra.
  - apply qbreak_le. lia.
Qed.

Lemma qbreak_pos (i : nat) : 0 < qbreak q T i.
Proof.
  apply Qlt_le_trans with (qbreak q T 0); [|apply qbreak_le; lia].
  cbn [qbreak]. apply Qlt_shift_div_l; lra.
Qed.

(** A segment that is not empty means the decay ratio is above 0. *)
Lemma qbreak_gap (j : nat) : qbreak q T j < qbreak q T (S j) -> 0 < q.
Proof.
  intros Hlt. destruct (Qlt_le_dec 0 q) as [H|H]; [exact H|].
  assert (q == 0) as Hz by lra.
  rewrite qbreak_S, (qhalf_zero j Hz) in Hlt. lra.
Qed.

Lemma qconst_bounds (i : nat) : q < 1 -> 0 <= qconst q i <= 1.
Proof.
  intros Hq. destruct i as [|i]; cbn [qconst]; [lra|].
  pose proof (Qpow_nonneg q (2 * S i) q_nonneg).
  assert (Qpow q (2 * S i) <= 1) by (apply Qpow_le_1; lra). lra.
Qed.

Lemma qconst_lt_1 (i : nat) : 0 < q -> qconst q i < 1.
Proof.
  intros Hq. destruct i as [|i]; cbn [qconst]; [lra|].
  pose proof (Qpow_pos q (2 * S i) Hq). lra.
Qed.

Lemma qconst_lt (i : nat) : 0 < q < 1 -> qconst q i < qconst q (S i).
Proof.
  intros Hq. destruct i as [|i]; cbn [qconst].
  - assert (Qpow q (S (2 * 0 + 1)) < 1) by (apply Qpow_lt_1; lra).
    replace (2 * 1)%nat with (S (2 * 0 + 1)) by lia. lra.
  - replace (2 * S (S i))%nat with (S (S (2 * S i))) by lia.
    cbn [Qpow]. pose proof (Qpow_pos q (2 * S i) (proj1 Hq)) as HP.
    set (P := Qpow q (2 * S i)) in *.
    assert (0 < (1 - q * q) * P) by (apply Qmult_lt_0_compat; nra).
    lra.
Qed.

Lemma nfactor_0 : nfactor q T 0 = Fin (qfactor q T 0).
Proof.
  cbn [nfactor qfactor]. apply div_Fin. apply Qeq_bool_false.
  intros E. assert (1 / T * (1 / T) * (T * T) == 1) as H by (field; lra).
  rewrite E in H. lra.
Qed.

Lemma nfactor_Fin (i : nat) : 0 < q -> nfactor q T i = Fin (qfactor q T i).
Proof.
  intros Hq. destruct i as [|j]; [apply nfactor_0|].
  cbn [nfactor qfactor]. apply div_Fin. apply Qeq_bool_false.
  pose proof (qhalf_pos j Hq). nra.
Qed.

Lemma nfactor_NaN (j : nat) : q == 0 -> nfactor q T (S j) = NaN.
Proof.
  intros Hq. cbn [nfactor qconst]. unfold Num.div.
  assert (Qeq_bool (qhalf q T j * qhalf q T j) 0 = true) as ->.
  { apply Qeq_bool_iff. rewrite (qhalf_zero j Hq). ring. }
  assert (Qeq_bool (1 - (1 - Qpow q (2 * S j))) 0 = true) as ->.
  { apply Qeq_bool_iff. replace (2 * S j)%nat with (S (2 * j + 1)) by lia.
    rewrite (Qpow_zero q _ Hq). ring. }
  reflexivity.
Qed.

(** Every scale equals the square of the total time. *)
Lemma qfactor_eq (i : nat) : 0 < q -> qfactor q T i == T * T.
Proof.
  intros Hq. destruct i as [|j]; cbn [qfactor].
  - field. lra.
  - cbn [qconst]. rewrite qhalf_eq, Qpow_double.
    pose proof (Qpow_pos q (S j) Hq). field. split; lra.
Qed.

(** The scale is what brings the parabola from its vertex value to 1 over
    half a segment. *)
Lemma qfactor_half (j : nat) :
  0 < q ->
  qfactor q T (S j) * (qhalf q T j * qhalf q T j) == 1 - qconst q (S j).
Proof.
  intros Hq. cbn [qfactor]. pose proof (qhalf_pos j Hq). field. lra.
Qed.

Lemma qfactor_nonneg (i : nat) : 0 < q -> 0 <= qfactor q T i.
Proof.
  intros Hq. rewrite (qfactor_eq i Hq). nra.
Qed.

End ClosedForms.

(** ** The lookup of the easing function *)

Lemma scan_hit (t : table) (x : num) (k a i : nat) :
  (a <= i < a + k)%nat ->
  (forall j, (a <= j < i)%nat -> Num.lt x (arr_get (timeBreakPoints t) j) = false) ->
  Num.lt x (arr_get (timeBreakPoints t) i) = true ->
  scan t x (List.seq a k) = VNum (parabola t i x).
Proof.
  revert a. induction k as [|k IH]; intros a Hi Hbefore Hat; [lia|].
  cbn [List.seq scan].
  destruct (Nat.eq_dec a i) as [->|Hne].
  - rewrite Hat. reflexivity.
  - rewrite (Hbefore a) by lia. apply IH; [lia | | exact Hat].
    intros j Hj. apply Hbefore. lia.
Qed.

Lemma first_true (f : nat -> bool) (n : nat) :
  f n = true ->
  exists i, (i <= n)%nat /\ f i = true /\ forall j, (j < i)%nat -> f j = false.
Proof.
  intros Hn.
  assert (forall m, (forall j, (j < m)%nat -> f j = false)
                    \/ exists i, (i < m)%nat /\ f i = true
                                 /\ forall j, (j < i)%nat -> f j = false) as H.
  { induction m as [|m [IH|(i & Hi & Hfi & Hlt)]].
    - left. intros j Hj. lia.
    - destruct (f m) eqn:Hm.
      + right. exists m. auto.
      + left. intros j Hj. destruct (Nat.eq_dec j m) as [->|]; [exact Hm|].
        apply IH. lia.
    - right. exists i. auto. }
  destruct (H (S n)) as [Hall|(i & Hi & Hfi & Hlt)].
  - rewrite Hall in Hn by lia. discriminate.
  - exists i. repeat split; [lia | exact Hfi | exact Hlt].
Qed.

Lemma precalculate_closed (q : Q) (n : nat) :
  0 <= q ->
  precalculate (Fin q) n
  = {| numberOfBounces := n;
       totalTime := Fin (qtotal q n);
       tables := closed_table q (qtotal q n) n |}.
Proof.
  intros Hq. unfold precalculate.
  rewrite total_time_Fin, table_loop_closed by (apply qtotal_nonzero, Hq).
  reflexivity.
Qed.

Section Profile.

(** A profile of [n] bounces for a decay ratio [q] of [0,1); its total time
    is [qtotal q n]. *)
Variable q : Q.
Variable n : nat.
Hypothesis q_range : 0 <= q < 1.

Lemma qtotal_pos : 0 < qtotal q n.
Proof.
  pose proof (qtotal_ge_1 q n (proj1 q_range)). lra.
Qed.

Lemma qbreak_last : qbreak q (qtotal q n) n == 1.
Proof.
  pose proof (qbreak_total q (qtotal q n) qtotal_pos n) as H.
  pose proof qtotal_pos. nra.
Qed.

Lemma qbreak_le_1 (i : nat) : (i <= n)%nat -> qbreak q (qtotal q n) i <= 1.
Proof.
  intros Hi. rewrite <- qbreak_last.
  apply qbreak_le; [apply q_range | apply qtotal_pos | exact Hi].
Qed.

Lemma get_break (i : nat) :
  (i <= n)%nat ->
  arr_get (timeBreakPoints (closed_table q (qtotal q n) n)) i
  = Fin (qbreak q (qtotal q n) i).
Proof.
  intros Hi. apply (arr_get_map_seq (fun i => Fin (qbreak q (qtotal q n) i))). lia.
Qed.

Lemma parabola_closed (i : nat) (t : Q) :
  (i <= n)%nat ->
  parabola (closed_table q (qtotal q n) n) i (Fin t)
  = Num.add
      (Num.mul
         (Num.mul (nfactor q (qtotal q n) i) (Fin (t - qvertex q (qtotal q n) i)))
         (Fin (t - qvertex q (qtotal q n) i)))
      (Fin (qconst q i)).
Proof.
  intros Hi. unfold parabola, closed_table.
  cbn [timeHalfwayPoints normalisingFactors normalisingConstants].
  rewrite (arr_get_map_seq (fun i => Fin (qvertex q (qtotal q n) i))) by lia.
  rewrite (arr_get_map_seq (nfactor q (qtotal q n))) by lia.
  rewrite (arr_get_map_seq (fun i => Fin (qconst q i))) by lia.
  reflexivity.
Qed.

Lemma parabola_Fin (i : nat) (t : Q) :
  (i <= n)%nat -> 0 < q \/ i = 0%nat ->
  parabola (closed_table q (qtotal q n) n) i (Fin t)
  = Fin (qfactor q (qtotal q n) i
         * (t - qvertex q (qtotal q n) i) * (t - qvertex q (qtotal q n) i)
         + qconst q i).
Proof.
  intros Hi Hq. rewrite parabola_closed by exact Hi.
  assert (nfactor q (qtotal q n) i = Fin (qfactor q (qtotal q n) i)) as ->.
  { destruct Hq as [Hq| ->].
    - apply nfactor_Fin; [apply qtotal_pos | exact Hq].
    - apply nfactor_0, qtotal_pos. }
  reflexivity.
Qed.

(** With decay ratio 0 the scale of every segment after the first is NaN,
    and so is the segment's parabola, wherever it is taken. *)
Lemma parabola_NaN (j : nat) (x : num) :
  q == 0 -> (S j <= n)%nat ->
  parabola (closed_table q (qtotal q n) n) (S j) x = NaN.
Proof.
  intros Hq Hj. unfold parabola, closed_table.
  cbn [timeHalfwayPoints normalisingFactors normalisingConstants].
  rewrite (arr_get_map_seq (nfactor q (qtotal q n))) by lia.
  rewrite (nfactor_NaN q (qtotal q n) qtotal_pos j Hq). reflexivity.
Qed.

(** The lookup of a [t] under 1: the first segment whose breakpoint
    exceeds [t] answers, and [t] is at or after every earlier breakpoint. *)
Lemma scan_segment (t : Q) :
  t < 1 ->
  exists i,
    (i <= n)%nat
    /\ t < qbreak q (qtotal q n) i
    /\ (forall j, (j < i)%nat -> qbreak q (qtotal q n) j <= t)
    /\ scan (closed_table q (qtotal q n) n) (Fin t) (List.seq 0 (S n))
       = VNum (parabola (closed_table q (qtotal q n) n) i (Fin t)).
Proof.
  intros Ht.
  destruct (first_true (fun i => Qltb t (qbreak q (qtotal q n) i)) n)
    as (i & Hi & Hlt & Hbefore).
  { apply Qltb_true. rewrite qbreak_last. exact Ht. }
  exists i. split; [exact Hi|]. split; [apply Qltb_true, Hlt|].
  split.
  - intros j Hj. apply Qltb_false, Hbefore, Hj.
  - apply scan_hit.
    + lia.
    + intros j Hj. rewrite get_break by lia. apply Hbefore. lia.
    + rewrite get_break by lia. exact Hlt.
Qed.

(** The value of the parabola the lookup selects lies between the
    segment's baseline and 1. *)
Lemma segment_value (t : Q) (i : nat) :
  0 <= t ->
  (i <= n)%nat ->
  t < qbreak q (qtotal q n) i ->
  (forall j, (j < i)%nat -> qbreak q (qtotal q n) j <= t) ->
  exists v,
    parabola (closed_table q (qtotal q n) n) i (Fin t) = Fin v
    /\ qconst q i <= v <= 1.
Proof.
  intros Ht Hi Hlt Hbefore. pose proof qtotal_pos as HT.
  destruct i as [|j].
  - rewrite parabola_Fin by auto.
    eexists. split; [reflexivity|].
    cbn [qfactor qvertex qconst qbreak] in *.
    set (T := qtotal q n) in *.
    assert (1 / (1 / T * (1 / T)) == T * T) as -> by (field; lra).
    assert (t * T < 1) as H1.
    { assert (1 / T * T == 1) as E by (field; lra).
      rewrite <- E. apply Qmult_lt_r; assumption. }
    assert (0 <= t * T) by nra.
    assert (T * T * (t - 0) * (t - 0) == (t * T) * (t * T)) as -> by ring.
    nra.
  - assert (qbreak q (qtotal q n) j <= t) as Hge by (apply Hbefore; lia).
    assert (0 < q) as Hq.
    { apply (qbreak_gap q (qtotal q n) (proj1 q_range) HT j). lra. }
    rewrite parabola_Fin by auto.
    eexists. split; [reflexivity|].
    pose proof (qfactor_half q (qtotal q n) HT j Hq) as Hf.
    pose proof (qfactor_nonneg q (qtotal q n) HT (S j) Hq) as Hf0.
    pose proof (qbreak_S q (qtotal q n) j) as HS.
    pose proof (qhalf_pos q (qtotal q n) HT j Hq) as Hh.
    cbn [qvertex].
    set (F := qfactor q (qtotal q n) (S j)) in *.
    set (h := qhalf q (qtotal q n) j) in *.
    set (c := qconst q (S j)) in *.
    set (b := qbreak q (qtotal q n) j) in *.
    set (u := t - (h + b)).
    assert (- h <= u < h) as Hu by (unfold u; lra).
    assert (0 <= u * u <= h * h) as Huu by nra.
    assert (F * u * u == F * (u * u)) as -> by ring.
    assert (0 <= F * (u * u)) by (apply Qmult_le_0_compat; lra).
    assert (0 <= F * (h * h - u * u)) by (apply Qmult_le_0_compat; lra).
    split; lra.
Qed.

End Profile.

Lemma builds_closed (q : Q) (th : num) (p : profile) :
  0 <= q ->
  builds (Fin q) th p ->
  p = {| numberOfBounces := numberOfBounces p;
         totalTime := Fin (qtotal q (numberOfBounces p));
         tables := closed_table q (qtotal q (numberOfBounces p)) (numberOfBounces p) |}.
Proof.
  intros Hq Hb. rewrite (builds_precalculate _ _ _ Hb) at 1.
  apply precalculate_closed, Hq.
Qed.

Lemma not_one_seq (t : Q) : ~ t == 1 -> Num.seq (Fin t) (Fin 1) = false.
Proof.
  intros H. apply Qeq_bool_false, H.
Qed.

(** The easing function on a profile in closed form, for an argument under 1. *)
Lemma easing_closed (q : Q) (n : nat) (t : Q) :
  0 <= q < 1 -> t < 1 ->
  exists i,
    (i <= n)%nat
    /\ t < qbreak q (qtotal q n) i
    /\ (forall j, (j < i)%nat -> qbreak q (qtotal q n) j <= t)
    /\ easing {| numberOfBounces := n;
                 totalTime := Fin (qtotal q n);
                 tables := closed_table q (qtotal q n) n |} (Fin t)
       = VNum (parabola (closed_table q (qtotal q n) n) i (Fin t)).
Proof.
  intros Hq Ht. unfold easing. rewrite not_one_seq by lra.
  cbn [tables numberOfBounces]. apply scan_segment; assumption.
Qed.

Lemma get_const (q T : Q) (n i : nat) :
  (i <= n)%nat ->
  arr_get (normalisingConstants (closed_table q T n)) i = Fin (qconst q i).
Proof.
  intros Hi. apply (arr_get_map_seq (fun i => Fin (qconst q i))). lia.
Qed.

(** The parabola of segment [i] at the segment's own breakpoint. *)
Lemma parabola_at_break (q : Q) (n i : nat) :
  0 <= q < 1 -> (i <= n)%nat -> 0 < q \/ i = 0%nat ->
  exists v,
    parabola (closed_table q (qtotal q n) n) i (Fin (qbreak q (qtotal q n) i)) = Fin v
    /\ v == 1.
Proof.
  intros Hq Hi Hpos. pose proof (qtotal_pos q n Hq) as HT.
  rewrite parabola_Fin by assumption.
  eexists. split; [reflexivity|].
  destruct i as [|j].
  - cbn [qfactor qvertex qconst qbreak]. field. lra.
  - assert (0 < q) as Hq0 by (destruct Hpos; [assumption | discriminate]).
    pose proof (qfactor_half q _ HT j Hq0) as Hf.
    pose proof (qbreak_S q (qtotal q n) j) as HS.
    cbn [qvertex]. rewrite HS.
    set (F := qfactor q (qtotal q n) (S j)) in *.
    set (h := qhalf q (qtotal q n) j) in *.
    set (b := qbreak q (qtotal q n) j) in *.
    assert (F * (b + 2 * h - (h + b)) * (b + 2 * h - (h + b)) == F * (h * h)) as ->
      by ring.
    lra.
Qed.

(** The parabola of segment [j + 1] at the breakpoint where it takes over. *)
Lemma parabola_at_entry (q : Q) (n j : nat) (t : Q) :
  0 < q < 1 -> (S j <= n)%nat -> t == qbreak q (qtotal q n) j ->
  exists v,
    parabola (closed_table q (qtotal q n) n) (S j) (Fin t) = Fin v /\ v == 1.
Proof.
  intros Hq Hj Ht. assert (0 <= q < 1) as Hq' by lra.
  pose proof (qtotal_pos q n Hq') as HT.
  rewrite parabola_Fin by (auto; tauto).
  eexists. split; [reflexivity|].
  pose proof (qfactor_half q _ HT j (proj1 Hq)) as Hf.
  cbn [qvertex]. rewrite Ht.
  set (F := qfactor q (qtotal q n) (S j)) in *.
  set (h := qhalf q (qtotal q n) j) in *.
  set (b := qbreak q (qtotal q n) j) in *.
  assert (F * (b - (h + b)) * (b - (h + b)) == F * (h * h)) as -> by ring.
  lra.
Qed.

Lemma build_more (fuel k : nat) (d th : num) (p : profile) :
  build fuel d th = Some p -> build (fuel + k) d th = Some p.
Proof.
  unfold build. intros H.
  destruct (bounce_loop fuel d th (Fin 1) 0) as [n|] eqn:E; [|discriminate].
  rewrite (bounce_loop_more _ k _ _ _ _ _ E). exact H.
Qed.

(** Replaces a profile the builder returned by its closed form, and names
    its bounce count [n]. *)
Ltac closed_profile Hq Hb n :=
  match type of Hb with
  | builds (Fin ?q) ?th ?p =>
      rewrite (builds_closed q th p (proj1 Hq) Hb) in *;
      set (n := numberOfBounces p) in *;
      cbn [tables numberOfBounces totalTime] in *
  end.

(** ** The claims *)

Section Claims.

Context `{rt : Runtime}.

Lemma normalised_is_number (a : jsval) :
  typeof (normalise_timeBetweenBounces a) = "number"%string.
Proof.
  unfold normalise_timeBetweenBounces.
  destruct a as [| |b|n|s|o]; try reflexivity.
  cbn [is_undefined typeof ToNumber]. cbn [String.eqb Ascii.eqb Bool.eqb negb orb].
  destruct (Num.ge n (Fin 1)); [reflexivity|].
  destruct (Num.lt n (Fin 0)); reflexivity.
Qed.

(** On a decay ratio of [0,1) and a truthy threshold the builder is [build]
    on the arguments as they are. *)
Lemma makeBounceFunction_accepted (q : Q) (b : jsval) (fuel : nat) :
  0 <= q < 1 -> truthy b = true ->
  makeBounceFunction fuel (VNum (Fin q)) b = build fuel (Fin q) (ToNumber b).
Proof.
  intros Hq Hb. unfold makeBounceFunction, normalise_timeBetweenBounces.
  cbn [is_undefined typeof ToNumber]. cbn [String.eqb Ascii.eqb Bool.eqb negb orb].
  assert (Num.ge (Fin q) (Fin 1) = false) as ->.
  { unfold Num.ge, Num.lt. rewrite negb_false_iff. apply Qltb_true. lra. }
  assert (Num.lt (Fin q) (Fin 0) = false) as ->.
  { apply Qltb_false. lra. }
  unfold normalise_bounceBackThreshold. rewrite Hb. reflexivity.
Qed.

Lemma returns_builds (q : Q) (b : jsval) (p : profile) :
  0 <= q < 1 -> truthy b = true ->
  returns (VNum (Fin q)) b p <-> builds (Fin q) (ToNumber b) p.
Proof.
  intros Hq Hb. unfold returns, builds.
  split; intros [fuel H]; exists fuel;
    [rewrite <- makeBounceFunction_accepted | rewrite makeBounceFunction_accepted];
    assumption.
Qed.

Lemma returns_halts (q : Q) (b : jsval) :
  0 <= q < 1 -> truthy b = true -> positive (ToNumber b) ->
  exists p, returns (VNum (Fin q)) b p.
Proof.
  intros Hq Hb Hpos.
  destruct (builds_halts q (ToNumber b) Hq Hpos) as [p Hp].
  exists p. apply returns_builds; assumption.
Qed.

(** C1, as amended.  For a decay ratio in [0,1) and a truthy threshold the
    builder returns whenever the threshold is positive; every evaluator it
    returns gives 1 at each breakpoint of its table; and the parabola of
    segment [i] taken at that segment's own breakpoint is 1 for segment 0,
    and for every segment when the decay ratio is above 0.  When the decay
    ratio is 0 the parabola of every later segment is NaN. *)
Theorem impact_continuity (q : Q) (b : jsval) :
  0 <= q < 1 -> truthy b = true ->
  (positive (ToNumber b) -> exists p, returns (VNum (Fin q)) b p)
  /\ forall p i, returns (VNum (Fin q)) b p -> (i <= numberOfBounces p)%nat ->
       is_number (easing p (arr_get (timeBreakPoints (tables p)) i)) 1
       /\ (0 < q \/ i = 0%nat ->
           Num.eq
             (parabola (tables p) i (arr_get (timeBreakPoints (tables p)) i))
             (Fin 1))
       /\ (q == 0 -> (1 <= i)%nat ->
           parabola (tables p) i (arr_get (timeBreakPoints (tables p)) i) = NaN).
Proof.
  intros Hq Htr. split; [apply returns_halts; assumption|].
  intros p i Hb Hi. apply (returns_builds q b p Hq Htr) in Hb.
  closed_profile Hq Hb n.
  rewrite get_break by exact Hi.
  pose proof (qtotal_pos q n Hq) as HT.
  split.
  - destruct (Qeq_bool (qbreak q (qtotal q n) i) 1) eqn:E.
    + unfold easing, Num.seq. rewrite E. cbn. reflexivity.
    + apply Qeq_bool_false in E.
      pose proof (qbreak_le_1 q n Hq i Hi) as Hle.
      destruct (easing_closed q n (qbreak q (qtotal q n) i) Hq)
        as (k & Hk & Hlt & Hbefore & ->); [lra|].
      destruct k as [|j].
      * exfalso.
        pose proof (qbreak_le q _ (proj1 Hq) HT 0 i ltac:(lia)). lra.
      * pose proof (Hbefore j ltac:(lia)) as Hj.
        assert (0 < q) as Hq0.
        { apply (qbreak_gap q _ (proj1 Hq) HT j). lra. }
        assert (i <= j)%nat as Hij.
        { destruct (Nat.le_gt_cases i j) as [H|H]; [exact H|].
          pose proof (qbreak_le q _ (proj1 Hq) HT (S j) i H). lra. }
        pose proof (qbreak_le q _ (proj1 Hq) HT i j Hij) as Hij'.
        destruct (parabola_at_entry q n j (qbreak q (qtotal q n) i))
          as (v & Hv & Hv1); [lra | exact Hk | lra |].
        rewrite Hv. exact Hv1.
  - split.
    + intros Hpos.
      destruct (parabola_at_break q n i Hq Hi Hpos) as (v & Hv & Hv1).
      rewrite Hv. exact Hv1.
    + intros Hz H1. destruct i as [|j]; [lia|].
      apply parabola_NaN; assumption.
Qed.

(** C2. For a decay ratio in [0,1) and a truthy threshold the builder returns
    whenever the threshold is positive, and every evaluator it returns gives
    0 at 0 and 1 at 1. *)
Theorem endpoint_values (q : Q) (b : jsval) :
  0 <= q < 1 -> truthy b = true ->
  (positive (ToNumber b) -> exists p, returns (VNum (Fin q)) b p)
  /\ forall p, returns (VNum (Fin q)) b p ->
       is_number (easing p (Fin 0)) 0 /\ is_number (easing p (Fin 1)) 1.
Proof.
  intros Hq Htr. split; [apply returns_halts; assumption|].
  intros p Hb. apply (returns_builds q b p Hq Htr) in Hb.
  split; [|reflexivity].
  closed_profile Hq Hb n.
  destruct (easing_closed q n 0 Hq) as (i & Hi & Hlt & Hbefore & ->); [lra|].
  destruct i as [|j].
  - rewrite parabola_Fin by (auto; lia).
    unfold is_number. cbn [qvertex qconst]. ring.
  - exfalso. pose proof (Hbefore 0%nat ltac:(lia)) as H0.
    pose proof (qbreak_pos q (qtotal q n) (proj1 Hq) (qtotal_pos q n Hq) 0). lra.
Qed.

(** C3, as amended.  In exact arithmetic: for a decay ratio in [0,1) and a
    truthy threshold the builder returns whenever the threshold is positive;
    in every table it returns the first breakpoint is [1 / totalTime] and
    the first baseline is 0; when the decay ratio is above 0 the breakpoints
    and the baselines increase strictly and every baseline is under 1; when
    it is 0 every breakpoint is 1 and every baseline after the first is 1. *)
Theorem table_invariants (q : Q) (b : jsval) :
  0 <= q < 1 -> truthy b = true ->
  (positive (ToNumber b) -> exists p, returns (VNum (Fin q)) b p)
  /\ forall p, returns (VNum (Fin q)) b p ->
       let breakpoints := timeBreakPoints (tables p) in
       let baselines := normalisingConstants (tables p) in
       arr_get breakpoints 0 = Num.div (Fin 1) (totalTime p)
       /\ arr_get baselines 0 = Fin 0
       /\ (0 < q ->
           (forall i, (i < numberOfBounces p)%nat ->
              Num.lt (arr_get breakpoints i) (arr_get breakpoints (S i)) = true
              /\ Num.lt (arr_get baselines i) (arr_get baselines (S i)) = true)
           /\ forall i, (i <= numberOfBounces p)%nat ->
                Num.lt (arr_get baselines i) (Fin 1) = true)
       /\ (q == 0 ->
           forall i, (i <= numberOfBounces p)%nat ->
             Num.eq (arr_get breakpoints i) (Fin 1)
             /\ ((1 <= i)%nat -> Num.eq (arr_get baselines i) (Fin 1))).
Proof.
  intros Hq Htr. split; [apply returns_halts; assumption|].
  intros p Hb. apply (returns_builds q b p Hq Htr) in Hb.
  closed_profile Hq Hb n.
  pose proof (qtotal_pos q n Hq) as HT.
  cbv zeta. split; [|split; [|split]].
  - rewrite get_break by lia. cbn [qbreak]. symmetry. apply div_Fin.
    apply qtotal_nonzero, Hq.
  - rewrite get_const by lia. reflexivity.
  - intros Hq0. split.
    + intros i Hi. rewrite !get_break, !get_const by lia.
      split; apply Qltb_true.
      * apply qbreak_lt; [apply Hq | exact HT | exact Hq0 | lia].
      * apply qconst_lt; lra.
    + intros i Hi. rewrite get_const by lia.
      apply Qltb_true, qconst_lt_1, Hq0.
  - intros Hz i Hi. rewrite get_break, get_const by lia. split.
    + cbn [Num.eq].
      pose proof (qbreak_total q _ HT i) as Hbt.
      rewrite (qtotal_zero q i Hz) in Hbt.
      pose proof (qtotal_zero q n Hz) as HT1.
      rewrite HT1 in Hbt at 2. lra.
    + intros H1. destruct i as [|i]; [lia|].
      cbn [Num.eq qconst]. replace (2 * S i)%nat with (S (2 * i + 1)) by lia.
      rewrite (Qpow_zero q _ Hz). ring.
Qed.

(** C4. For a decay ratio in [0,1) and a truthy threshold the builder returns
    whenever the threshold is positive; in every profile it returns the last
    breakpoint is 1, and for each [t] of [0,1] the evaluator either takes the
    [t = 1] case or finds a segment whose breakpoint exceeds [t], so it never
    falls through to [undefined]. *)
Theorem final_breakpoint (q : Q) (b : jsval) :
  0 <= q < 1 -> truthy b = true ->
  (positive (ToNumber b) -> exists p, returns (VNum (Fin q)) b p)
  /\ forall p, returns (VNum (Fin q)) b p ->
       Num.eq (lastBreakPoint (tables p)) (Fin 1)
       /\ Num.eq (arr_get (timeBreakPoints (tables p)) (numberOfBounces p)) (Fin 1)
       /\ forall t, 0 <= t <= 1 ->
            easing p (Fin t) <> VUndefined
            /\ (t == 1
                \/ exists i,
                     (i <= numberOfBounces p)%nat
                     /\ Num.lt (Fin t) (arr_get (timeBreakPoints (tables p)) i) = true
                     /\ easing p (Fin t) = VNum (parabola (tables p) i (Fin t))).
Proof.
  intros Hq Htr. split; [apply returns_halts; assumption|].
  intros p Hb. apply (returns_builds q b p Hq Htr) in Hb.
  closed_profile Hq Hb n.
  split; [apply (qbreak_last q n Hq)|].
  split; [rewrite get_break by lia; apply (qbreak_last q n Hq)|].
  intros t Ht.
  destruct (Qeq_bool t 1) eqn:E.
  - split.
    + unfold easing, Num.seq. rewrite E. discriminate.
    + left. apply Qeq_bool_iff, E.
  - apply Qeq_bool_false in E.
    destruct (easing_closed q n t Hq) as (i & Hi & Hlt & Hbefore & Heq); [lra|].
    split.
    + rewrite Heq. discriminate.
    + right. exists i. split; [exact Hi|]. split; [|exact Heq].
      rewrite get_break by lia. apply Qltb_true, Hlt.
Qed.

(** C5, as amended.  In exact arithmetic: for a decay ratio in [0,1) and a
    truthy threshold the builder returns whenever the threshold is positive,
    and every evaluator it returns maps each [t] of [0,1] to a number of
    [0,1]. *)
Theorem output_range (q : Q) (b : jsval) :
  0 <= q < 1 -> truthy b = true ->
  (positive (ToNumber b) -> exists p, returns (VNum (Fin q)) b p)
  /\ forall p t, returns (VNum (Fin q)) b p -> 0 <= t <= 1 ->
       is_between (easing p (Fin t)) 0 1.
Proof.
  intros Hq Htr. split; [apply returns_halts; assumption|].
  intros p t Hb Ht. apply (returns_builds q b p Hq Htr) in Hb.
  destruct (Qeq_bool t 1) eqn:E.
  - unfold easing, Num.seq. rewrite E. cbn. lra.
  - apply Qeq_bool_false in E.
    closed_profile Hq Hb n.
    destruct (easing_closed q n t Hq) as (i & Hi & Hlt & Hbefore & ->); [lra|].
    destruct (segment_value q n Hq t i) as (v & -> & Hv); try assumption; [lra|].
    pose proof (qconst_bounds q (proj1 Hq) i (proj2 Hq)).
    cbn. lra.
Qed.

(** C6. With decay ratio 0.5 and threshold 0.01, passed or defaulted, the
    builder returns a profile with 5 bounces, total time 2.9375 and first
    breakpoint 1/2.9375, which is 0.340426 to six places. *)
Theorem default_parameters (fuel : nat) :
  exists p,
    makeBounceFunction (6 + fuel) (VNum (Fin (1#2))) (VNum (Fin (1#100))) = Some p
    /\ makeBounceFunction (6 + fuel) VUndefined VUndefined = Some p
    /\ numberOfBounces p = 5%nat
    /\ Num.eq (totalTime p) (Fin 2.9375)
    /\ Num.eq (arr_get (timeBreakPoints (tables p)) 0) (Fin (1 / 2.9375))
    /\ is_between (VNum (arr_get (timeBreakPoints (tables p)) 0)) 0.3404255 0.3404265.
Proof.
  exists (precalculate (Fin (1#2)) 5).
  split; [apply build_more; reflexivity|].
  split; [apply build_more; reflexivity|].
  split; [reflexivity|].
  split; [reflexivity|].
  split; [reflexivity|].
  vm_compute. split; discriminate.
Qed.

(** C7, as amended.  A decay ratio of -0.2 is clamped to 0, and with the
    default threshold the builder returns a profile with 2 bounces. *)
Theorem negative_decay_clamped (fuel : nat) :
  normalise_timeBetweenBounces (VNum (Fin (-2#10))) = VNum (Fin 0)
  /\ exists p,
       makeBounceFunction (3 + fuel) (VNum (Fin (-2#10))) VUndefined = Some p
       /\ makeBounceFunction (3 + fuel) (VNum (Fin (-2#10))) (VNum (Fin (1#100))) = Some p
       /\ numberOfBounces p = 2%nat.
Proof.
  split; [reflexivity|].
  exists (precalculate (Fin 0) 2).
  split; [apply build_more; reflexivity|].
  split; [apply build_more; reflexivity|].
  reflexivity.
Qed.

(** C8. For a decay ratio in [0,1) and a truthy threshold under 1 the loop
    guard holds on entry, so the first pass runs the body; the builder
    returns whenever the threshold is positive; and every bounce count it
    returns is at least 1. *)
Theorem minimum_bounce_count (q : Q) (b : jsval) :
  0 <= q < 1 -> truthy b = true ->
  Num.lt (ToNumber b) (Fin 1) = true ->
  Num.gt (Fin 1) (ToNumber b) = true
  /\ (forall fuel,
        bounce_loop (S fuel) (Fin q) (ToNumber b) (Fin 1) 0
        = bounce_loop fuel (Fin q) (ToNumber b) (Num.pow (Fin q) (2 * 0)) 1)
  /\ (positive (ToNumber b) -> exists p, returns (VNum (Fin q)) b p)
  /\ forall p, returns (VNum (Fin q)) b p -> (1 <= numberOfBounces p)%nat.
Proof.
  intros Hq Htr Hth. split; [exact Hth|]. split.
  { intros fuel. cbn [bounce_loop]. unfold Num.gt. rewrite Hth. reflexivity. }
  split; [apply returns_halts; assumption|].
  intros p Hb. apply (returns_builds q b p Hq Htr) in Hb.
  destruct Hb as [fuel Hb]. unfold build in Hb.
  destruct fuel as [|fuel]; [discriminate|].
  cbn [bounce_loop] in Hb. unfold Num.gt in Hb. rewrite Hth in Hb.
  destruct (bounce_loop fuel _ _ _ _) as [n|] eqn:E; [|discriminate].
  injection Hb as <-. apply bounce_loop_ge in E. exact E.
Qed.

(** C9. The decay ratio becomes 0.5 when it is absent, not of type number,
    or at least 1, and 0 when it is a number under 0; after that its type
    is number, so the threshold becomes 0.01 when it is falsy and is kept
    when it is truthy, whatever its type; a decay ratio of 1 builds what 0.5
    builds, and a threshold of 0 builds what an absent threshold builds. *)
Theorem parameter_normalisation (a b : jsval) :
  (is_undefined a = true
   \/ typeof a <> "number"%string
   \/ Num.ge (ToNumber a) (Fin 1) = true ->
   normalise_timeBetweenBounces a = VNum (Fin (1#2)))
  /\ (typeof a = "number"%string -> Num.lt (ToNumber a) (Fin 0) = true ->
      normalise_timeBetweenBounces a = VNum (Fin 0))
  /\ typeof (normalise_timeBetweenBounces a) = "number"%string
  /\ (truthy b = false ->
      normalise_bounceBackThreshold (normalise_timeBetweenBounces a) b
      = VNum (Fin (1#100)))
  /\ (truthy b = true ->
      normalise_bounceBackThreshold (normalise_timeBetweenBounces a) b = b)
  /\ (forall fuel,
        makeBounceFunction fuel (VNum (Fin 1)) b
        = makeBounceFunction fuel (VNum (Fin (1#2))) b)
  /\ (forall fuel x,
        bounce fuel (VNum (Fin 1)) b x = bounce fuel (VNum (Fin (1#2))) b x)
  /\ (forall fuel,
        makeBounceFunction fuel a (VNum (Fin 0)) = makeBounceFunction fuel a VUndefined)
  /\ (forall fuel x,
        bounce fuel a (VNum (Fin 0)) x = bounce fuel a VUndefined x).
Proof.
  assert (forall v, truthy v = true ->
            normalise_bounceBackThreshold (normalise_timeBetweenBounces a) v = v)
    as Hkeep.
  { intros v Hv. unfold normalise_bounceBackThreshold.
    rewrite Hv, normalised_is_number. reflexivity. }
  assert (forall v, truthy v = false ->
            normalise_bounceBackThreshold (normalise_timeBetweenBounces a) v
            = VNum (Fin (1#100)))
    as Hdefault.
  { intros v Hv. unfold normalise_bounceBackThreshold. rewrite Hv. reflexivity. }
  split; [|split; [|split; [|split; [|split]]]].
  - intros H. unfold normalise_timeBetweenBounces.
    destruct a as [| |c|n|s|o]; try reflexivity.
    destruct H as [H|[H|H]]; [discriminate | now elim H |].
    cbn [ToNumber] in H. cbn [is_undefined typeof ToNumber].
    rewrite H, orb_true_r. reflexivity.
  - intros Ht Hlt. unfold normalise_timeBetweenBounces.
    destruct a as [| |c|n|s|o]; try discriminate.
    cbn [ToNumber] in Hlt. cbn [is_undefined typeof ToNumber].
    rewrite Hlt.
    assert (Num.ge n (Fin 1) = false) as ->.
    { destruct n as [x| | |]; try discriminate; [|reflexivity].
      unfold Num.ge, Num.lt in *. apply Qltb_true in Hlt.
      rewrite negb_false_iff. apply Qltb_true. lra. }
    reflexivity.
  - apply normalised_is_number.
  - apply Hdefault.
  - apply Hkeep.
  - assert (forall fuel,
             makeBounceFunction fuel a (VNum (Fin 0))
             = makeBounceFunction fuel a VUndefined) as H0.
    { intros fuel. unfold makeBounceFunction.
      rewrite !Hdefault by reflexivity. reflexivity. }
    split; [reflexivity|]. split; [reflexivity|].
    split; [exact H0|].
    intros fuel x. unfold bounce. rewrite H0. reflexivity.
Qed.

(** C10. A truthy threshold that is at least 1 stops the loop before its
    first pass: the profile has no bounce, total time 1 and the single
    segment with breakpoint 1, vertex 0, scale 1 and baseline 0, and the
    evaluator returns [t * t] under 1 and 1 at 1. *)
Theorem threshold_at_least_one (a b : jsval) (fuel : nat) :
  truthy b = true ->
  Num.ge (ToNumber b) (Fin 1) = true ->
  Num.gt (Fin 1)
    (ToNumber (normalise_bounceBackThreshold (normalise_timeBetweenBounces a) b))
  = false
  /\ exists p,
       makeBounceFunction (S fuel) a b = Some p
       /\ numberOfBounces p = 0%nat
       /\ totalTime p = Fin 1
       /\ tables p
          = {| lastBreakPoint := Fin 1;
               timeBreakPoints := [Fin 1];
               timeHalfwayPoints := [Fin 0];
               normalisingFactors := [Fin 1];
               normalisingConstants := [Fin 0] |}
       /\ (forall t, 0 <= t < 1 -> is_number (easing p (Fin t)) (t * t))
       /\ easing p (Fin 1) = VNum (Fin 1).
Proof.
  intros Hb Hge.
  assert (normalise_bounceBackThreshold (normalise_timeBetweenBounces a) b = b) as Hkeep.
  { unfold normalise_bounceBackThreshold.
    rewrite Hb, normalised_is_number. reflexivity. }
  assert (Num.gt (Fin 1) (ToNumber b) = false) as Hgt.
  { unfold Num.gt. destruct (ToNumber b) as [x| | |]; try discriminate; [|reflexivity].
    unfold Num.ge, Num.lt in *. rewrite negb_true_iff in Hge.
    apply Qltb_false in Hge. apply Qltb_false. exact Hge. }
  rewrite Hkeep. split; [exact Hgt|].
  exists (precalculate (ToNumber (normalise_timeBetweenBounces a)) 0).
  split.
  { unfold makeBounceFunction, build. rewrite Hkeep.
    cbn [bounce_loop]. rewrite Hgt. reflexivity. }
  split; [reflexivity|]. split; [reflexivity|]. split; [reflexivity|].
  split; [|reflexivity].
  intros t Ht. unfold easing. rewrite not_one_seq by lra.
  change (tables (precalculate (ToNumber (normalise_timeBetweenBounces a)) 0))
    with {| lastBreakPoint := Fin 1;
            timeBreakPoints := [Fin 1];
            timeHalfwayPoints := [Fin 0];
            normalisingFactors := [Fin 1];
            normalisingConstants := [Fin 0] |}.
  cbn [numberOfBounces precalculate List.seq scan timeBreakPoints arr_get nth].
  unfold Num.lt. assert (Qltb t 1 = true) as -> by (apply Qltb_true; lra).
  unfold parabola, is_number.
  cbn [timeHalfwayPoints normalisingFactors normalisingConstants arr_get nth
       Num.sub Num.add Num.mul Num.opp].
  ring.
Qed.

(** The builder never returns when the decay ratio is above 0 and the
    threshold, though truthy, is at or under 0: every computed height stays
    above it. *)
Theorem nonpositive_threshold_diverges (q : Q) (b : jsval) (fuel : nat) :
  0 < q < 1 -> truthy b = true ->
  Num.ge (Fin 0) (ToNumber b) = true ->
  makeBounceFunction fuel (VNum (Fin q)) b = None.
Proof.
  intros Hq Htr Hth. rewrite makeBounceFunction_accepted by (assumption || lra).
  unfold build.
  rewrite (bounce_loop_diverges q (ToNumber b) (proj1 Hq) Hth fuel 0 1) by lra.
  reflexivity.
Qed.

(** A decay ratio of NaN has type number and fails both comparisons, so it
    is kept: every table entry that depends on it is NaN, and the evaluator
    falls through to [undefined] for every argument other than 1. *)
Theorem nan_decay_kept (fuel : nat) :
  normalise_timeBetweenBounces (VNum NaN) = VNum NaN
  /\ exists p,
       makeBounceFunction (3 + fuel) (VNum NaN) VUndefined = Some p
       /\ numberOfBounces p = 2%nat
       /\ timeBreakPoints (tables p) = [NaN; NaN; NaN]
       /\ easing p (Fin 1) = VNum (Fin 1)
       /\ forall x, Num.seq x (Fin 1) = false -> easing p x = VUndefined.
Proof.
  split; [reflexivity|].
  exists (precalculate NaN 2).
  split; [apply build_more; reflexivity|].
  split; [reflexivity|]. split; [reflexivity|]. split; [reflexivity|].
  intros x Hx. unfold easing. rewrite Hx.
  change (timeBreakPoints (tables (precalculate NaN 2))) with [NaN; NaN; NaN].
  cbn [numberOfBounces precalculate List.seq scan].
  change (timeBreakPoints (tables (precalculate NaN 2))) with [NaN; NaN; NaN].
  cbn [arr_get nth].
  destruct x; reflexivity.
Qed.

End Claims.

(** ** The claims at concrete arguments, and where three of them fail as stated *)

Lemma returns_default :
  @returns runtime0 (VNum (Fin (1#2))) (VNum (Fin (1#100))) (precalculate (Fin (1#2)) 5).
Proof.
  exists 6%nat. reflexivity.
Defined.

Lemma impact_continuity_witness :
  is_number
    (easing (precalculate (Fin (1#2)) 5)
       (arr_get (timeBreakPoints (tables (precalculate (Fin (1#2)) 5))) 2)) 1
  /\ Num.eq
       (parabola (tables (precalculate (Fin (1#2)) 5)) 2
          (arr_get (timeBreakPoints (tables (precalculate (Fin (1#2)) 5))) 2))
       (Fin 1).
Proof.
  destruct (proj2 (@impact_continuity runtime0 (1#2) (VNum (Fin (1#100)))
                     ltac:(lra) eq_refl)
              (precalculate (Fin (1#2)) 5) 2%nat returns_default)
    as (H1 & H2 & _).
  - cbn. lia.
  - split; [exact H1|]. apply H2. left. reflexivity.
Defined.

(** C1 as stated fails at decay ratio 0 with threshold 0.01: the builder
    returns a table of three segments in which the scale of segment 1 is
    [0/0], so that segment's parabola at its own breakpoint is NaN, not 1. *)
Lemma impact_continuity_counterexample :
  @makeBounceFunction runtime0 3 (VNum (Fin 0)) (VNum (Fin (1#100)))
  = Some (precalculate (Fin 0) 2)
  /\ arr_get (normalisingFactors (tables (precalculate (Fin 0) 2))) 1 = NaN
  /\ parabola (tables (precalculate (Fin 0) 2)) 1
       (arr_get (timeBreakPoints (tables (precalculate (Fin 0) 2))) 1)
     = NaN
  /\ ~ Num.eq
         (parabola (tables (precalculate (Fin 0) 2)) 1
            (arr_get (timeBreakPoints (tables (precalculate (Fin 0) 2))) 1))
         (Fin 1).
Proof.
  repeat split; try reflexivity. vm_compute. tauto.
Qed.

Lemma endpoint_values_witness :
  is_number (easing (precalculate (Fin (1#2)) 5) (Fin 0)) 0
  /\ is_number (easing (precalculate (Fin (1#2)) 5) (Fin 1)) 1.
Proof.
  apply (proj2 (@endpoint_values runtime0 (1#2) (VNum (Fin (1#100)))
                  ltac:(lra) eq_refl)).
  exact returns_default.
Defined.

Lemma table_invariants_witness :
  let p := precalculate (Fin (1#2)) 5 in
  let breakpoints := timeBreakPoints (tables p) in
  let baselines := normalisingConstants (tables p) in
  arr_get breakpoints 0 = Num.div (Fin 1) (totalTime p)
  /\ arr_get baselines 0 = Fin 0
  /\ (forall i, (i < numberOfBounces p)%nat ->
        Num.lt (arr_get breakpoints i) (arr_get breakpoints (S i)) = true
        /\ Num.lt (arr_get baselines i) (arr_get baselines (S i)) = true)
  /\ forall i, (i <= numberOfBounces p)%nat ->
       Num.lt (arr_get baselines i) (Fin 1) = true.
Proof.
  destruct (proj2 (@table_invariants runtime0 (1#2) (VNum (Fin (1#100)))
                     ltac:(lra) eq_refl)
              (precalculate (Fin (1#2)) 5) returns_default)
    as (H1 & H2 & H3 & _).
  destruct H3 as [H3 H4]; [reflexivity|].
  cbv zeta. split; [exact H1|]. split; [exact H2|]. split; [exact H3 | exact H4].
Defined.

Section Rounding.

Import PrimFloat.

(** C3 as stated fails in two ways.  At decay ratio 0 with threshold 0.01,
    in any arithmetic, the three breakpoints are all 1 and the baselines are
    0, 1, 1, so neither sequence increases strictly and a baseline reaches
    1.  And in binary64 the same happens for a decay ratio above 0: at decay
    ratio [2^-40] with the threshold 0.01 the breakpoints round to
    [1 - 2^-39], 1, 1 and the baselines to 0, 1, 1.  Every power the builder
    takes there is a binary64 number, so no choice of [Math.pow] matters. *)
Lemma table_invariants_counterexample :
  (@makeBounceFunction runtime0 3 (VNum (Fin 0)) (VNum (Fin (1#100)))
   = Some (precalculate (Fin 0) 2)
   /\ timeBreakPoints (tables (precalculate (Fin 0) 2)) = [Fin 1; Fin 1; Fin 1]
   /\ normalisingConstants (tables (precalculate (Fin 0) 2)) = [Fin 0; Fin 1; Fin 1]
   /\ Num.lt (arr_get (timeBreakPoints (tables (precalculate (Fin 0) 2))) 0)
        (arr_get (timeBreakPoints (tables (precalculate (Fin 0) 2))) 1)
      = false
   /\ Num.lt (arr_get (normalisingConstants (tables (precalculate (Fin 0) 2))) 1)
        (arr_get (normalisingConstants (tables (precalculate (Fin 0) 2))) 2)
      = false
   /\ Num.lt (arr_get (normalisingConstants (tables (precalculate (Fin 0) 2))) 1)
        (Fin 1)
      = false)
  /\ ((0 <? 0x1p-40)%float = true
      /\ (0x1p-40 <? 1)%float = true
      /\ forallb (B64.exact_pow 0x1p-40 (Qpower 2 (-40))) (List.seq 0 5) = true
      /\ B64.build 3 0x1p-40 0x1.47ae147ae147bp-7 = Some (B64.precalculate 0x1p-40 2)
      /\ B64.timeBreakPoints (B64.tables (B64.precalculate 0x1p-40 2))
         = [(1 - 0x1p-39)%float; 1%float; 1%float]
      /\ B64.normalisingConstants (B64.tables (B64.precalculate 0x1p-40 2))
         = [0%float; 1%float; 1%float]
      /\ (B64.arr_get (B64.timeBreakPoints (B64.tables (B64.precalculate 0x1p-40 2))) 1
          <? B64.arr_get (B64.timeBreakPoints (B64.tables (B64.precalculate 0x1p-40 2))) 2)%float
         = false
      /\ (B64.arr_get (B64.normalisingConstants (B64.tables (B64.precalculate 0x1p-40 2))) 1
          <? B64.arr_get (B64.normalisingConstants (B64.tables (B64.precalculate 0x1p-40 2))) 2)%float
         = false
      /\ (B64.arr_get (B64.normalisingConstants (B64.tables (B64.precalculate 0x1p-40 2))) 1
          <? 1)%float
         = false).
Proof.
  split.
  - repeat split; reflexivity.
  - repeat split; vm_compute; reflexivity.
Qed.

(** C5 as stated fails in binary64.  At decay ratio 0.75 with threshold 0.5
    the evaluator at [t = timeBreakPoints[0]], which lies in [0,1], returns
    [1 + 2^-52], above 1.  At decay ratio 0.1875 with threshold 0.03125 the
    last breakpoint rounds to [1 - 2^-53], the largest number under 1, so at
    that [t] no breakpoint exceeds [t] and the evaluator returns
    [undefined].  Every power the builder takes at these arguments is a
    binary64 number, so no choice of [Math.pow] matters. *)
Lemma output_range_counterexample :
  (forallb (B64.exact_pow 0.75 (3#4)) (List.seq 0 7) = true
   /\ B64.build 4 0.75 0.5 = Some (B64.precalculate 0.75 3)
   /\ (0 <=? B64.arr_get (B64.timeBreakPoints (B64.tables (B64.precalculate 0.75 3))) 0)%float
      = true
   /\ (B64.arr_get (B64.timeBreakPoints (B64.tables (B64.precalculate 0.75 3))) 0 <=? 1)%float
      = true
   /\ B64.easing (B64.precalculate 0.75 3)
        (B64.arr_get (B64.timeBreakPoints (B64.tables (B64.precalculate 0.75 3))) 0)
      = B64.Number (1 + 0x1p-52)
   /\ (1 <? 1 + 0x1p-52)%float = true)
  /\ (forallb (B64.exact_pow 0.1875 (3#16)) (List.seq 0 7) = true
      /\ B64.build 4 0.1875 0.03125 = Some (B64.precalculate 0.1875 3)
      /\ B64.lastBreakPoint (B64.tables (B64.precalculate 0.1875 3))
         = (1 - 0x1p-53)%float
      /\ (0 <=? 1 - 0x1p-53)%float = true
      /\ (1 - 0x1p-53 <? 1)%float = true
      /\ B64.easing (B64.precalculate 0.1875 3) (1 - 0x1p-53) = B64.Undefined).
Proof.
  split; repeat split; vm_compute; reflexivity.
Qed.

(** At the default parameters in binary64: 5 bounces and total time 2.9375
    as in exact arithmetic, and a last breakpoint that is 1; but the
    evaluator at the first breakpoint returns [1 - 2^-53], not 1, and the
    scales of the later segments are not all the square of the total time. *)
Lemma binary64_at_defaults :
  forallb (B64.exact_pow 0.5 (1#2)) (List.seq 0 11) = true
  /\ B64.build 6 0.5 0x1.47ae147ae147bp-7 = Some (B64.precalculate 0.5 5)
  /\ B64.totalTime (B64.precalculate 0.5 5) = 2.9375%float
  /\ B64.lastBreakPoint (B64.tables (B64.precalculate 0.5 5)) = 1%float
  /\ B64.easing (B64.precalculate 0.5 5)
       (B64.arr_get (B64.timeBreakPoints (B64.tables (B64.precalculate 0.5 5))) 0)
     = B64.Number (1 - 0x1p-53)
  /\ (B64.arr_get (B64.normalisingFactors (B64.tables (B64.precalculate 0.5 5))) 2
      =? 2.9375 * 2.9375)%float
     = false.
Proof.
  repeat split; vm_compute; reflexivity.
Qed.

End Rounding.

Lemma final_breakpoint_witness :
  Num.eq (lastBreakPoint (tables (precalculate (Fin (1#2)) 5))) (Fin 1)
  /\ Num.eq (arr_get (timeBreakPoints (tables (precalculate (Fin (1#2)) 5))) 5) (Fin 1)
  /\ forall t, 0 <= t <= 1 ->
       easing (precalculate (Fin (1#2)) 5) (Fin t) <> VUndefined
       /\ (t == 1
           \/ exists i,
                (i <= 5)%nat
                /\ Num.lt (Fin t)
                     (arr_get (timeBreakPoints (tables (precalculate (Fin (1#2)) 5))) i)
                   = true
                /\ easing (precalculate (Fin (1#2)) 5) (Fin t)
                   = VNum (parabola (tables (precalculate (Fin (1#2)) 5)) i (Fin t))).
Proof.
  apply (proj2 (@final_breakpoint runtime0 (1#2) (VNum (Fin (1#100)))
                  ltac:(lra) eq_refl)
           (precalculate (Fin (1#2)) 5)).
  exact returns_default.
Defined.

Lemma output_range_witness :
  is_between (easing (precalculate (Fin (1#2)) 5) (Fin (9#10))) 0 1.
Proof.
  apply (proj2 (@output_range runtime0 (1#2) (VNum (Fin (1#100)))
                  ltac:(lra) eq_refl)).
  - exact returns_default.
  - lra.
Defined.

(** C7 as stated fails: with decay ratio -0.2 and the default threshold the
    builder returns a profile with 2 bounces, never 1.  The loop's first
    pass computes [0^0 = 1], which is still above the threshold. *)
Lemma negative_decay_counterexample :
  @makeBounceFunction runtime0 3 (VNum (Fin (-2#10))) VUndefined
  = Some (precalculate (Fin 0) 2)
  /\ numberOfBounces (precalculate (Fin 0) 2) = 2%nat
  /\ forall fuel p,
       @makeBounceFunction runtime0 fuel (VNum (Fin (-2#10))) VUndefined = Some p ->
       numberOfBounces p <> 1%nat.
Proof.
  split; [reflexivity|]. split; [reflexivity|].
  intros fuel p Hp.
  assert (builds (Fin 0) (Fin (1#100)) p) as Hb by (exists fuel; exact Hp).
  assert (builds (Fin 0) (Fin (1#100)) (precalculate (Fin 0) 2)) as Hb2
    by (exists 3%nat; reflexivity).
  rewrite (builds_det _ _ _ _ Hb Hb2). discriminate.
Qed.

Lemma minimum_bounce_count_witness :
  (1 <= numberOfBounces (precalculate (Fin (1#2)) 5))%nat.
Proof.
  apply (proj2 (proj2 (proj2
    (@minimum_bounce_count runtime0 (1#2) (VNum (Fin (1#100)))
       ltac:(lra) eq_refl eq_refl)))).
  exact returns_default.
Defined.

Lemma parameter_normalisation_witness :
  @normalise_timeBetweenBounces runtime0 (VString "fast") = VNum (Fin (1#2))
  /\ normalise_bounceBackThreshold
       (@normalise_timeBetweenBounces runtime0 (VString "fast")) (VString "low")
     = VString "low".
Proof.
  pose proof (@parameter_normalisation runtime0 (VString "fast") (VString "low"))
    as (H1 & _ & _ & _ & H5 & _).
  split.
  - apply H1. right. left. discriminate.
  - apply H5. reflexivity.
Defined.

Lemma threshold_at_least_one_witness :
  exists p,
    @makeBounceFunction runtime0 1 VUndefined (VNum (Fin 1)) = Some p
    /\ numberOfBounces p = 0%nat
    /\ totalTime p = Fin 1
    /\ tables p
       = {| lastBreakPoint := Fin 1;
            timeBreakPoints := [Fin 1];
            timeHalfwayPoints := [Fin 0];
            normalisingFactors := [Fin 1];
            normalisingConstants := [Fin 0] |}
    /\ (forall t, 0 <= t < 1 -> is_number (easing p (Fin t)) (t * t))
    /\ easing p (Fin 1) = VNum (Fin 1).
Proof.
  apply (proj2 (@threshold_at_least_one runtime0 VUndefined (VNum (Fin 1)) 0
                  eq_refl eq_refl)).
Defined.

Lemma nonpositive_threshold_diverges_witness :
  @makeBounceFunction runtime0 100 (VNum (Fin (1#2))) (VNum (Fin (-1))) = None.
Proof.
  apply (@nonpositive_threshold_diverges runtime0 (1#2) (VNum (Fin (-1))) 100);
    [lra | reflexivity | reflexivity].
Defined.

(** ** Further properties: the bounce count *)

Lemma Qpow_base_le (a b : Q) (n : nat) : 0 <= a -> a <= b -> Qpow a n <= Qpow b n.
Proof.
  intros Ha Hab. induction n as [|n IH]; cbn [Qpow]; [lra|].
  pose proof (Qpow_nonneg a n Ha). nra.
Qed.

(** An explicit exponent at which the powers of [q] are under [t]. *)
Lemma Qpow_below_at (q t : Q) :
  0 <= q < 1 -> 0 < t ->
  Qpow q (Z.to_nat (Qceiling (1 / (t * (1 - q))))) <= t.
Proof.
  intros Hq Ht.
  set (x := 1 / (t * (1 - q))).
  assert (0 < t * (1 - q)) as Hden by nra.
  assert (0 < x) as Hx by (unfold x; apply Qlt_shift_div_l; lra).
  set (n := Z.to_nat (Qceiling x)).
  assert (x <= inject_Z (Z.of_nat n)) as Hn.
  { unfold n. rewrite Z2Nat.id; [apply Qle_ceiling|].
    pose proof (Qle_ceiling x).
    rewrite Zle_Qle. change (inject_Z 0) with 0. lra. }
  pose proof (Qpow_decay q n Hq) as Hd.
  pose proof (Qpow_nonneg q n (proj1 Hq)) as Hp.
  assert (x * (t * (1 - q)) == 1) as Hxe by (unfold x; field; split; lra).
  set (N := inject_Z (Z.of_nat n)) in *.
  set (P := Qpow q n) in *.
  assert (N * (1 - q) * P <= 1) as H1 by lra.
  assert (0 <= (N - x) * (t * (1 - q)) * P) as H2.
  { apply Qmult_le_0_compat; [|exact Hp].
    apply Qmult_le_0_compat; lra. }
  assert (P * (x * (t * (1 - q))) == P) as H3 by (rewrite Hxe; ring).
  nra.
Qed.

(** Where the loop stops: at once when the guard fails, and otherwise at the
    first counter whose computed height is not above the threshold. *)
Lemma bounce_loop_first (d th : num) (fuel : nat) :
  forall (h : num) (i n : nat),
    bounce_loop fuel d th h i = Some n ->
    (Num.gt h th = false /\ n = i)
    \/ (Num.gt h th = true
        /\ (i < n)%nat
        /\ Num.gt (Num.pow d (2 * (n - 1))) th = false
        /\ forall k, (i < k < n)%nat -> Num.gt (Num.pow d (2 * (k - 1))) th = true).
Proof.
  induction fuel as [|fuel IH]; intros h i n; cbn [bounce_loop]; [discriminate|].
  destruct (Num.gt h th) eqn:G.
  - intros H. apply IH in H. right. split; [reflexivity|].
    destruct H as [[G' ->] | (G' & Hlt & Hstop & Hall)].
    + split; [lia|]. split.
      * replace (S i - 1)%nat with i by lia. exact G'.
      * intros k Hk. lia.
    + split; [lia|]. split; [exact Hstop|].
      intros k Hk. destruct (Nat.eq_dec k (S i)) as [->|Hne].
      * replace (S i - 1)%nat with i by lia. exact G'.
      * apply Hall. lia.
  - intros [= <-]. left. split; reflexivity.
Qed.

Lemma build_count (d th : num) (p : profile) :
  builds d th p ->
  (Num.lt th (Fin 1) = false -> numberOfBounces p = 0%nat)
  /\ (Num.lt th (Fin 1) = true ->
      (2 <= numberOfBounces p)%nat
      /\ Num.gt (Num.pow d (2 * (numberOfBounces p - 1))) th = false
      /\ forall k, (1 <= k < numberOfBounces p)%nat ->
           Num.gt (Num.pow d (2 * (k - 1))) th = true).
Proof.
  intros [fuel Hb]. unfold build in Hb.
  destruct (bounce_loop fuel d th (Fin 1) 0) as [n|] eqn:E; [|discriminate].
  injection Hb as <-. cbn [numberOfBounces precalculate].
  apply bounce_loop_first in E. change (Num.gt (Fin 1) th) with (Num.lt th (Fin 1)) in E.
  split; intros Hth; rewrite Hth in E.
  - destruct E as [[_ ->] | (E & _)]; [reflexivity | discriminate].
  - destruct E as [[E _] | (_ & Hlt & Hstop & Hall)]; [discriminate|].
    split; [|split; [exact Hstop|]].
    + destruct (Nat.eq_dec n 1) as [->|]; [|lia].
      cbn in Hstop. change (Num.gt (Fin 1) th) with (Num.lt th (Fin 1)) in Hstop.
      congruence.
    + intros k Hk. apply Hall. lia.
Qed.

Lemma lt_Fin_le (t1 t2 : Q) (x : num) :
  t1 <= t2 -> Num.lt (Fin t2) x = true -> Num.lt (Fin t1) x = true.
Proof.
  intros Hle. destruct x as [y| | |]; cbn [Num.lt]; try trivial.
  rewrite !Qltb_true. lra.
Qed.

Lemma truthy_number (t : Q) : ~ t == 0 -> truthy (VNum (Fin t)) = true.
Proof.
  intros H. cbn [truthy]. rewrite negb_true_iff. apply Qeq_bool_false, H.
Qed.

Section BounceCount.

Context `{rt : Runtime}.

Lemma threshold_kept (a b : jsval) :
  truthy b = true ->
  normalise_bounceBackThreshold (normalise_timeBetweenBounces a) b = b.
Proof.
  intros Hb. unfold normalise_bounceBackThreshold.
  rewrite Hb, normalised_is_number. reflexivity.
Qed.

(** The bounce count is 0 when the threshold is not under 1; otherwise it is
    at least 2 and is the first counter [n] whose height, the decay ratio to
    the power [2 (n - 1)], is not above the threshold. *)
Theorem bounce_count_least (a b : jsval) (p : profile) :
  returns a b p ->
  let d := ToNumber (normalise_timeBetweenBounces a) in
  let th :=
    ToNumber (normalise_bounceBackThreshold (normalise_timeBetweenBounces a) b) in
  (Num.lt th (Fin 1) = false -> numberOfBounces p = 0%nat)
  /\ (Num.lt th (Fin 1) = true ->
      (2 <= numberOfBounces p)%nat
      /\ Num.gt (Num.pow d (2 * (numberOfBounces p - 1))) th = false
      /\ forall k, (1 <= k < numberOfBounces p)%nat ->
           Num.gt (Num.pow d (2 * (k - 1))) th = true).
Proof.
  intros Hr. cbv zeta. apply build_count. exact Hr.
Qed.

(** A lower threshold never gives fewer bounces, whatever the decay ratio. *)
Theorem lower_threshold_more_bounces (a : jsval) (t1 t2 : Q) (p1 p2 : profile) :
  ~ t1 == 0 -> ~ t2 == 0 -> t1 <= t2 ->
  returns a (VNum (Fin t1)) p1 -> returns a (VNum (Fin t2)) p2 ->
  (numberOfBounces p2 <= numberOfBounces p1)%nat.
Proof.
  intros H1 H2 Hle [f1 Hr1] [f2 Hr2].
  unfold makeBounceFunction in Hr1, Hr2.
  rewrite threshold_kept in Hr1, Hr2 by (apply truthy_number; assumption).
  change (ToNumber (VNum (Fin t1))) with (Fin t1) in Hr1.
  change (ToNumber (VNum (Fin t2))) with (Fin t2) in Hr2.
  set (d := ToNumber (normalise_timeBetweenBounces a)) in *.
  destruct (build_count d (Fin t1) p1 (ex_intro _ f1 Hr1)) as [_ C1].
  destruct (build_count d (Fin t2) p2 (ex_intro _ f2 Hr2)) as [Z2 C2].
  destruct (Num.lt (Fin t2) (Fin 1)) eqn:E2.
  - destruct (C2 eq_refl) as (N2 & _ & All2).
    destruct C1 as (N1 & Stop1 & _).
    { apply (lt_Fin_le t1 t2); assumption. }
    destruct (Nat.le_gt_cases (numberOfBounces p2) (numberOfBounces p1)) as [H|H];
      [exact H|].
    specialize (All2 (numberOfBounces p1) ltac:(lia)).
    unfold Num.gt in *. apply (lt_Fin_le t1 t2 _ Hle) in All2. congruence.
  - rewrite (Z2 eq_refl). lia.
Qed.

(** A higher decay ratio never gives fewer bounces. *)
Theorem higher_decay_more_bounces (q1 q2 : Q) (b : jsval) (p1 p2 : profile) :
  0 <= q1 -> q1 <= q2 -> q2 < 1 -> truthy b = true ->
  returns (VNum (Fin q1)) b p1 -> returns (VNum (Fin q2)) b p2 ->
  (numberOfBounces p1 <= numberOfBounces p2)%nat.
Proof.
  intros H0 Hle H1 Hb Hr1 Hr2.
  apply returns_builds in Hr1; [|lra|exact Hb].
  apply returns_builds in Hr2; [|lra|exact Hb].
  destruct (build_count _ _ _ Hr1) as [Z1 C1].
  destruct (build_count _ _ _ Hr2) as [_ C2].
  destruct (Num.lt (ToNumber b) (Fin 1)) eqn:E.
  - destruct (C1 eq_refl) as (N1 & _ & All1).
    destruct (C2 eq_refl) as (N2 & Stop2 & _).
    destruct (Nat.le_gt_cases (numberOfBounces p1) (numberOfBounces p2)) as [H|H];
      [exact H|].
    specialize (All1 (numberOfBounces p2) ltac:(lia)).
    rewrite pow_Fin in All1, Stop2. unfold Num.gt in *.
    pose proof (Qpow_base_le q1 q2 (2 * (numberOfBounces p2 - 1)) H0 Hle) as Hp.
    destruct (ToNumber b) as [t| | |]; try discriminate.
    cbn [Num.lt] in All1, Stop2.
    apply Qltb_true in All1. apply Qltb_false in Stop2. lra.
  - rewrite (Z1 eq_refl). lia.
Qed.

(** For a decay ratio [q] of [0,1) and a positive threshold [t] the bounce
    count is at most [ceiling (1 / (t (1 - q))) + 1]. *)
Theorem bounce_count_bound (q t : Q) (p : profile) :
  0 <= q < 1 -> 0 < t ->
  returns (VNum (Fin q)) (VNum (Fin t)) p ->
  (numberOfBounces p <= Z.to_nat (Qceiling (1 / (t * (1 - q)))) + 1)%nat.
Proof.
  intros Hq Ht Hr.
  apply returns_builds in Hr; [|exact Hq|apply truthy_number; lra].
  cbn [ToNumber] in Hr.
  destruct (build_count _ _ _ Hr) as [Z C].
  pose proof (Qpow_below_at q t Hq Ht) as Hbelow.
  set (m := Z.to_nat (Qceiling (1 / (t * (1 - q))))) in *.
  destruct (Num.lt (Fin t) (Fin 1)) eqn:E.
  - destruct (C eq_refl) as (_ & _ & All).
    destruct (Nat.le_gt_cases (numberOfBounces p) (m + 1)) as [H|H]; [exact H|].
    specialize (All (m + 1)%nat ltac:(lia)).
    rewrite pow_Fin in All. unfold Num.gt, Num.lt in All. apply Qltb_true in All.
    assert (Qpow q (2 * (m + 1 - 1)) <= Qpow q m)
      by (apply Qpow_antitone; [lra | lia]).
    lra.
  - rewrite (Z eq_refl). lia.
Qed.

End BounceCount.

(** ** Further properties: the table *)

Lemma table_loop_shape (d tt : num) (n : nat) :
  let t := table_loop d tt n in
  List.length (timeBreakPoints t) = S n
  /\ List.length (timeHalfwayPoints t) = S n
  /\ List.length (normalisingFactors t) = S n
  /\ List.length (normalisingConstants t) = S n
  /\ lastBreakPoint t = arr_get (timeBreakPoints t) n.
Proof.
  cbv zeta. induction n as [|n (H1 & H2 & H3 & H4 & H5)].
  - repeat split.
  - rewrite table_loop_S. unfold table_step.
    cbn [timeBreakPoints timeHalfwayPoints normalisingFactors normalisingConstants
         lastBreakPoint].
    rewrite !length_app, H1, H2, H3, H4. cbn [List.length].
    repeat split; try lia.
    symmetry. apply arr_get_app_last. symmetry. exact H1.
Qed.

(** The total time as a geometric sum. *)
Lemma qtotal_geometric (q : Q) (n : nat) :
  qtotal q n * (1 - q) == 1 + q - 2 * Qpow q (S n).
Proof.
  induction n as [|n IH].
  - unfold qtotal. cbn. ring.
  - rewrite qtotal_S.
    assert ((qtotal q n + Qpow q (S n) * 2) * (1 - q)
            == qtotal q n * (1 - q) + Qpow q (S n) * 2 * (1 - q)) as -> by ring.
    rewrite IH. cbn [Qpow]. ring.
Qed.

Lemma get_vertex (q T : Q) (n i : nat) :
  (i <= n)%nat ->
  arr_get (timeHalfwayPoints (closed_table q T n)) i = Fin (qvertex q T i).
Proof.
  intros Hi. apply (arr_get_map_seq (fun i => Fin (qvertex q T i))). lia.
Qed.

Lemma get_factor (q T : Q) (n i : nat) :
  (i <= n)%nat ->
  arr_get (normalisingFactors (closed_table q T n)) i = nfactor q T i.
Proof.
  intros Hi. apply (arr_get_map_seq (nfactor q T)). lia.
Qed.

Section TableFacts.

Context `{rt : Runtime}.

(** Whatever the arguments, each of the four arrays of a returned profile
    has one entry per segment, [numberOfBounces + 1] in all, and the last
    breakpoint computed is the last entry of [timeBreakPoints]. *)
Theorem table_lengths (a b : jsval) (p : profile) :
  returns a b p ->
  List.length (timeBreakPoints (tables p)) = S (numberOfBounces p)
  /\ List.length (timeHalfwayPoints (tables p)) = S (numberOfBounces p)
  /\ List.length (normalisingFactors (tables p)) = S (numberOfBounces p)
  /\ List.length (normalisingConstants (tables p)) = S (numberOfBounces p)
  /\ lastBreakPoint (tables p)
     = arr_get (timeBreakPoints (tables p)) (numberOfBounces p).
Proof.
  intros Hr. apply builds_precalculate in Hr. rewrite Hr.
  cbn [tables numberOfBounces precalculate]. apply table_loop_shape.
Qed.

(** In exact arithmetic: for a decay ratio [q] of [0,1) the total time [T]
    of a returned profile of [n] bounces is the geometric sum
    [T (1 - q) = 1 + q - 2 q^(n+1)]; it is at least 1, and the first
    breakpoint [1 / T] is at least [(1 - q) / (1 + q)]. *)
Theorem total_time_geometric (q : Q) (b : jsval) (p : profile) :
  0 <= q < 1 -> truthy b = true ->
  returns (VNum (Fin q)) b p ->
  exists T,
    totalTime p = Fin T
    /\ T * (1 - q) == 1 + q - 2 * Qpow q (S (numberOfBounces p))
    /\ 1 <= T
    /\ is_between (VNum (arr_get (timeBreakPoints (tables p)) 0)) ((1 - q) / (1 + q)) 1.
Proof.
  intros Hq Htr Hb. apply (returns_builds q b p Hq Htr) in Hb.
  closed_profile Hq Hb n.
  exists (qtotal q n).
  pose proof (qtotal_geometric q n) as Hg.
  pose proof (qtotal_ge_1 q n (proj1 Hq)) as H1.
  pose proof (Qpow_nonneg q (S n) (proj1 Hq)) as Hp.
  split; [reflexivity|]. split; [exact Hg|]. split; [exact H1|].
  rewrite get_break by lia. cbn [is_between qbreak].
  set (T := qtotal q n) in *.
  assert (0 < 1 + q) as Hq1 by lra.
  assert ((1 - q) / (1 + q) * (1 + q) == 1 - q) as E1 by (field; lra).
  assert (1 / T * T == 1) as E2 by (field; lra).
  set (x := (1 - q) / (1 + q)) in *. set (y := 1 / T) in *.
  split.
  - assert (x * (1 + q) * T <= y * T * (1 + q)) as H by nra.
    assert (0 < (1 + q) * T) as Hpos by nra.
    nra.
  - nra.
Qed.

(** In exact arithmetic: for a decay ratio of (0,1) every segment of a
    returned profile has the same scale, the square of the total time. *)
Theorem constant_scale (q : Q) (b : jsval) (p : profile) :
  0 < q < 1 -> truthy b = true ->
  returns (VNum (Fin q)) b p ->
  exists T,
    totalTime p = Fin T
    /\ forall i, (i <= numberOfBounces p)%nat ->
         is_number (VNum (arr_get (normalisingFactors (tables p)) i)) (T * T).
Proof.
  intros Hq Htr Hb. assert (0 <= q < 1) as Hq' by lra.
  apply (returns_builds q b p Hq' Htr) in Hb.
  closed_profile Hq' Hb n.
  exists (qtotal q n). split; [reflexivity|].
  intros i Hi. rewrite get_factor by exact Hi.
  rewrite (nfactor_Fin q _ (qtotal_pos q n Hq') i (proj1 Hq)).
  cbn [is_number]. apply qfactor_eq; [apply qtotal_pos; exact Hq' | apply Hq].
Qed.

End TableFacts.

(** ** Further properties: the easing function *)

Lemma scan_miss (t : table) (x : num) (k a : nat) :
  (forall j, (a <= j < a + k)%nat -> Num.lt x (arr_get (timeBreakPoints t) j) = false) ->
  scan t x (List.seq a k) = VUndefined.
Proof.
  revert a. induction k as [|k IH]; intros a Hall; cbn [List.seq scan].
  - reflexivity.
  - rewrite (Hall a) by lia. apply IH. intros j Hj. apply Hall. lia.
Qed.

(** The lookup of a [t] that lies in segment [i]. *)
Lemma easing_segment (q : Q) (n i : nat) (t : Q) :
  0 <= q < 1 -> (i <= n)%nat ->
  t < qbreak q (qtotal q n) i ->
  (forall j, i = S j -> qbreak q (qtotal q n) j <= t) ->
  easing {| numberOfBounces := n;
            totalTime := Fin (qtotal q n);
            tables := closed_table q (qtotal q n) n |} (Fin t)
  = VNum (parabola (closed_table q (qtotal q n) n) i (Fin t)).
Proof.
  intros Hq Hi Hlt Hprev. pose proof (qbreak_le_1 q n Hq i Hi) as H1.
  unfold easing. rewrite not_one_seq by lra. cbn [tables numberOfBounces].
  apply scan_hit.
  - lia.
  - intros j Hj. rewrite get_break by lia. apply Qltb_false.
    destruct i as [|i']; [lia|].
    apply Qle_trans with (qbreak q (qtotal q n) i'); [|apply Hprev; reflexivity].
    apply qbreak_le; [apply Hq | apply qtotal_pos, Hq | lia].
  - rewrite get_break by lia. apply Qltb_true, Hlt.
Qed.

Lemma normalise_nonpositive `{Runtime} (x : Q) :
  x <= 0 ->
  exists q, q == 0 /\ normalise_timeBetweenBounces (VNum (Fin x)) = VNum (Fin q).
Proof.
  intros Hx. unfold normalise_timeBetweenBounces.
  cbn [is_undefined typeof ToNumber]. cbn [String.eqb Ascii.eqb Bool.eqb negb orb].
  assert (Num.ge (Fin x) (Fin 1) = false) as ->.
  { unfold Num.ge, Num.lt. rewrite negb_false_iff. apply Qltb_true. lra. }
  destruct (Num.lt (Fin x) (Fin 0)) eqn:E.
  - exists 0. split; reflexivity.
  - exists x. split; [|reflexivity]. apply Qltb_false in E. lra.
Qed.

Section EasingFacts.

Context `{rt : Runtime}.

(** In exact arithmetic: for a decay ratio [q] of (0,1), the evaluator at the
    vertex time of bounce [i] returns that bounce's baseline [1 - q^(2i)],
    and nowhere on the bounce's segment does it return less. *)
Theorem vertex_value (q : Q) (b : jsval) (p : profile) (i : nat) :
  0 < q < 1 -> truthy b = true ->
  returns (VNum (Fin q)) b p ->
  (1 <= i <= numberOfBounces p)%nat ->
  is_number (easing p (arr_get (timeHalfwayPoints (tables p)) i)) (1 - Qpow q (2 * i))
  /\ forall t,
       Num.lt (Fin t) (arr_get (timeBreakPoints (tables p)) (i - 1)) = false ->
       Num.lt (Fin t) (arr_get (timeBreakPoints (tables p)) i) = true ->
       is_between (easing p (Fin t)) (1 - Qpow q (2 * i)) 1.
Proof.
  intros Hq Htr Hb Hi. assert (0 <= q < 1) as Hq' by lra.
  pose proof (proj1 Hq) as Hq0.
  apply (returns_builds q b p Hq' Htr) in Hb.
  closed_profile Hq' Hb n.
  destruct i as [|j]; [lia|]. replace (S j - 1)%nat with j by lia.
  pose proof (qtotal_pos q n Hq') as HT.
  pose proof (qhalf_pos q _ HT j (proj1 Hq)) as Hh.
  pose proof (qbreak_S q (qtotal q n) j) as HS.
  pose proof (qbreak_pos q _ (proj1 Hq') HT j) as Hbj.
  split.
  - rewrite get_vertex by lia.
    rewrite (easing_segment q n (S j)); [|exact Hq' | lia | |].
    + rewrite parabola_Fin by (auto; lia).
      cbn [is_number qconst]. ring.
    + cbn [qvertex]. lra.
    + intros j' [= <-]. cbn [qvertex]. lra.
  - intros t Hge Hlt. rewrite get_break in Hge, Hlt by lia.
    apply Qltb_false in Hge. apply Qltb_true in Hlt.
    rewrite (easing_segment q n (S j)); [|exact Hq' | lia | exact Hlt |].
    + destruct (segment_value q n Hq' t (S j)) as (v & -> & Hv);
        [lra | lia | exact Hlt | |].
      * intros j' Hj'.
        apply Qle_trans with (qbreak q (qtotal q n) j); [|exact Hge].
        apply qbreak_le; [lra | exact HT | lia].
      * cbn [is_between qconst] in *. exact Hv.
    + intros j' [= <-]. exact Hge.
Qed.

(** In exact arithmetic: for a decay ratio of [0,1) and [t] in [0,1], the
    evaluator returns 1 exactly when [t] is one of the breakpoints. *)
Theorem impact_only_at_breakpoints (q : Q) (b : jsval) (p : profile) (t : Q) :
  0 <= q < 1 -> truthy b = true ->
  returns (VNum (Fin q)) b p ->
  0 <= t <= 1 ->
  is_number (easing p (Fin t)) 1
  <-> exists i,
        (i <= numberOfBounces p)%nat
        /\ Num.eq (arr_get (timeBreakPoints (tables p)) i) (Fin t).
Proof.
  intros Hq Htr Hb Ht.
  apply (returns_builds q b p Hq Htr) in Hb.
  closed_profile Hq Hb n.
  pose proof (qtotal_pos q n Hq) as HT.
  destruct (Qeq_bool t 1) eqn:E.
  { apply Qeq_bool_iff in E. split.
    - intros _. exists n. split; [lia|]. rewrite get_break by lia.
      cbn [Num.eq]. rewrite (qbreak_last q n Hq). symmetry. exact E.
    - intros _. unfold easing, Num.seq.
      assert (Qeq_bool t 1 = true) as -> by (apply Qeq_bool_iff, E).
      reflexivity. }
  apply Qeq_bool_false in E.
  destruct (easing_closed q n t Hq) as (k & Hk & Hlt & Hbefore & ->); [lra|].
  split.
  - intros H1. destruct k as [|j].
    + exfalso. rewrite parabola_Fin in H1 by (auto; lia).
      cbn [is_number qfactor qvertex qconst qbreak] in H1, Hlt.
      set (T := qtotal q n) in *.
      assert (1 / (1 / T * (1 / T)) == T * T) as EF by (field; lra).
      rewrite EF in H1.
      assert (t * T < 1) as H2.
      { assert (1 / T * T == 1) as E1 by (field; lra).
        rewrite <- E1. apply Qmult_lt_r; assumption. }
      assert (0 <= t * T) by nra.
      assert (T * T * (t - 0) * (t - 0) + 0 == (t * T) * (t * T)) as E2 by ring.
      rewrite E2 in H1. nra.
    + pose proof (Hbefore j ltac:(lia)) as Hj.
      assert (0 < q) as Hq0.
      { apply (qbreak_gap q _ (proj1 Hq) HT j). lra. }
      exists j. split; [lia|]. rewrite get_break by lia. cbn [Num.eq].
      rewrite parabola_Fin in H1 by (auto; lia).
      cbn [is_number qvertex] in H1.
      pose proof (qfactor_half q _ HT j Hq0) as Hf.
      pose proof (qfactor_eq q _ HT (S j) Hq0) as HF.
      pose proof (qbreak_S q (qtotal q n) j) as HS.
      pose proof (qhalf_pos q _ HT j Hq0) as Hh.
      set (F := qfactor q (qtotal q n) (S j)) in *.
      set (h := qhalf q (qtotal q n) j) in *.
      set (c := qconst q (S j)) in *.
      set (bj := qbreak q (qtotal q n) j) in *.
      set (u := t - (h + bj)) in *.
      assert (0 < F) as HF0 by (rewrite HF; nra).
      assert (F * ((h - u) * (h + u)) == 0) as Hz.
      { assert (F * ((h - u) * (h + u)) == F * (h * h) - F * u * u) as -> by ring.
        lra. }
      apply Qmult_integral in Hz. destruct Hz as [Hz|Hz]; [lra|].
      apply Qmult_integral in Hz. unfold u in *. destruct Hz as [Hz|Hz]; lra.
  - intros (i & Hi & Heq). rewrite get_break in Heq by exact Hi.
    cbn [Num.eq] in Heq.
    destruct k as [|j].
    + exfalso.
      pose proof (qbreak_le q _ (proj1 Hq) HT 0 i ltac:(lia)). lra.
    + pose proof (Hbefore j ltac:(lia)) as Hj.
      assert (0 < q) as Hq0.
      { apply (qbreak_gap q _ (proj1 Hq) HT j). lra. }
      assert (i <= j)%nat as Hij.
      { destruct (Nat.le_gt_cases i j) as [H|H]; [exact H|].
        pose proof (qbreak_le q _ (proj1 Hq) HT (S j) i H). lra. }
      pose proof (qbreak_le q _ (proj1 Hq) HT i j Hij) as Hij'.
      destruct (parabola_at_entry q n j t) as (v & Hv & Hv1);
        [lra | exact Hk | lra |].
      rewrite Hv. exact Hv1.
Qed.

(** Outside its domain.  In exact arithmetic, on a profile for a decay ratio
    of [0,1) no breakpoint is above 1, so the evaluator returns [undefined]
    for every number above 1; and on any profile at all it returns
    [undefined] for NaN and for +Infinity. *)
Theorem above_one_undefined (q : Q) (b : jsval) (p : profile) :
  0 <= q < 1 -> truthy b = true ->
  returns (VNum (Fin q)) b p ->
  (forall t, 1 < t -> easing p (Fin t) = VUndefined)
  /\ (forall p' : profile, easing p' NaN = VUndefined /\ easing p' PInf = VUndefined).
Proof.
  intros Hq Htr Hb. split.
  - apply (returns_builds q b p Hq Htr) in Hb.
    closed_profile Hq Hb n.
    intros t Ht. unfold easing. rewrite not_one_seq by lra.
    cbn [tables numberOfBounces]. apply scan_miss.
    intros j Hj. rewrite get_break by lia. apply Qltb_false.
    pose proof (qbreak_le_1 q n Hq j ltac:(lia)). lra.
  - intros p'. split; unfold easing; cbn [Num.seq]; apply scan_miss;
      intros j _; destruct (arr_get (timeBreakPoints (tables p')) j); reflexivity.
Qed.

(** In exact arithmetic: for a decay ratio of [0,1), before the first
    breakpoint [1 / T] the evaluator returns [(t T)^2], for negative [t] as
    well. *)
Theorem initial_fall (q : Q) (b : jsval) (p : profile) :
  0 <= q < 1 -> truthy b = true ->
  returns (VNum (Fin q)) b p ->
  exists T,
    totalTime p = Fin T
    /\ forall t, t * T < 1 -> is_number (easing p (Fin t)) (t * T * (t * T)).
Proof.
  intros Hq Htr Hb. apply (returns_builds q b p Hq Htr) in Hb.
  closed_profile Hq Hb n.
  exists (qtotal q n). split; [reflexivity|].
  intros t Ht. pose proof (qtotal_pos q n Hq) as HT.
  rewrite (easing_segment q n 0); [|exact Hq | lia | | discriminate].
  - rewrite parabola_Fin by (auto; lia).
    cbn [is_number qfactor qvertex qconst]. field. lra.
  - cbn [qbreak]. apply Qlt_shift_div_l; assumption.
Qed.

(** With a decay ratio at or under 0, whatever the threshold, the evaluator
    of a returned profile is [t * t] for every [t] under 1. *)
Theorem nonpositive_decay_square (x : Q) (b : jsval) (p : profile) :
  x <= 0 ->
  returns (VNum (Fin x)) b p ->
  forall t, t < 1 -> is_number (easing p (Fin t)) (t * t).
Proof.
  intros Hx [fuel Hr] t Ht. unfold makeBounceFunction in Hr.
  destruct (normalise_nonpositive x Hx) as (q & Hz & Hn).
  rewrite Hn in Hr. cbn [ToNumber] in Hr.
  assert (0 <= q < 1) as Hq by lra.
  assert (builds (Fin q)
            (ToNumber (normalise_bounceBackThreshold (VNum (Fin q)) b)) p) as Hb
    by (exists fuel; exact Hr).
  clear Hr. closed_profile Hq Hb n.
  pose proof (qtotal_pos q n Hq) as HT.
  pose proof (qtotal_zero q n Hz) as H1.
  rewrite (easing_segment q n 0); [|exact Hq | lia | | discriminate].
  - rewrite parabola_Fin by (auto; lia).
    cbn [is_number qfactor qvertex qconst].
    set (T := qtotal q n) in *.
    assert (1 / (1 / T * (1 / T)) == T * T) as -> by (field; lra).
    rewrite H1. ring.
  - cbn [qbreak]. apply Qlt_shift_div_l; [exact HT|]. rewrite H1. lra.
Qed.

(** In exact arithmetic: for a decay ratio [q] of (0,1), bounce [i] is
    symmetric about its vertex time [v]: the evaluator returns the same
    value at [v - u] and [v + u] while [u] is under the half duration
    [q^i / T]. *)
Theorem bounce_symmetry (q : Q) (b : jsval) (p : profile) (i : nat) :
  0 < q < 1 -> truthy b = true ->
  returns (VNum (Fin q)) b p ->
  (1 <= i <= numberOfBounces p)%nat ->
  exists T v,
    totalTime p = Fin T
    /\ arr_get (timeHalfwayPoints (tables p)) i = Fin v
    /\ forall u, 0 <= u -> u * T < Qpow q i ->
         exists y,
           is_number (easing p (Fin (v - u))) y
           /\ is_number (easing p (Fin (v + u))) y.
Proof.
  intros Hq Htr Hb Hi. assert (0 <= q < 1) as Hq' by lra.
  pose proof (proj1 Hq) as Hq0.
  apply (returns_builds q b p Hq' Htr) in Hb.
  closed_profile Hq' Hb n.
  destruct i as [|j]; [lia|].
  exists (qtotal q n), (qvertex q (qtotal q n) (S j)).
  split; [reflexivity|]. split; [apply get_vertex; lia|].
  intros u Hu0 Hu.
  pose proof (qtotal_pos q n Hq') as HT.
  pose proof (qhalf_eq q _ HT j) as Hh.
  pose proof (qbreak_S q (qtotal q n) j) as HS.
  assert (u < qhalf q (qtotal q n) j) as Huh.
  { rewrite Hh. apply Qlt_shift_div_l; assumption. }
  exists (qfactor q (qtotal q n) (S j) * u * u + qconst q (S j)).
  cbn [qvertex] in *.
  split.
  - rewrite (easing_segment q n (S j)); [|exact Hq' | lia | lra |].
    + rewrite parabola_Fin by (auto; lia). cbn [is_number qvertex]. ring.
    + intros j' [= <-]. lra.
  - rewrite (easing_segment q n (S j)); [|exact Hq' | lia | lra |].
    + rewrite parabola_Fin by (auto; lia). cbn [is_number qvertex]. ring.
    + intros j' [= <-]. lra.
Qed.

(** For a decay ratio of (0,1), within one segment the evaluator falls up
    to the vertex time and rises after it: for [t1 <= t2] in segment [i],
    the value at [t2] is at most the value at [t1] when [t2] is at or before
    the vertex, and at least it when [t1] is at or after the vertex. *)
Theorem segment_monotone (q : Q) (b : jsval) (p : profile) (i : nat) (t1 t2 : Q) :
  0 < q < 1 -> truthy b = true ->
  returns (VNum (Fin q)) b p ->
  (i <= numberOfBounces p)%nat ->
  t1 <= t2 ->
  (i = 0%nat
   \/ Num.lt (Fin t1) (arr_get (timeBreakPoints (tables p)) (i - 1)) = false) ->
  Num.lt (Fin t2) (arr_get (timeBreakPoints (tables p)) i) = true ->
  exists v y1 y2,
    arr_get (timeHalfwayPoints (tables p)) i = Fin v
    /\ easing p (Fin t1) = VNum (Fin y1)
    /\ easing p (Fin t2) = VNum (Fin y2)
    /\ (t2 <= v -> y2 <= y1)
    /\ (v <= t1 -> y1 <= y2).
Proof.
  intros Hq Htr Hb Hi Hle Hin1 Hin2. assert (0 <= q < 1) as Hq' by lra.
  pose proof (proj1 Hq) as Hq0.
  apply (returns_builds q b p Hq' Htr) in Hb.
  closed_profile Hq' Hb n.
  pose proof (qtotal_pos q n Hq') as HT.
  rewrite get_break in Hin2 by exact Hi. apply Qltb_true in Hin2.
  assert (forall j, i = S j -> qbreak q (qtotal q n) j <= t1) as Hprev.
  { intros j ->. destruct Hin1 as [Hin1|Hin1]; [discriminate|].
    replace (S j - 1)%nat with j in Hin1 by lia.
    rewrite get_break in Hin1 by lia. apply Qltb_false, Hin1. }
  exists (qvertex q (qtotal q n) i).
  exists (qfactor q (qtotal q n) i
          * (t1 - qvertex q (qtotal q n) i) * (t1 - qvertex q (qtotal q n) i)
          + qconst q i).
  exists (qfactor q (qtotal q n) i
          * (t2 - qvertex q (qtotal q n) i) * (t2 - qvertex q (qtotal q n) i)
          + qconst q i).
  split; [apply get_vertex; exact Hi|].
  split.
  { rewrite (easing_segment q n i); [|exact Hq' | exact Hi | lra | exact Hprev].
    rewrite parabola_Fin by (auto; lia). reflexivity. }
  split.
  { rewrite (easing_segment q n i); [|exact Hq' | exact Hi | exact Hin2 |].
    - rewrite parabola_Fin by (auto; lia). reflexivity.
    - intros j Hj. specialize (Hprev j Hj). lra. }
  pose proof (qfactor_nonneg q _ HT i (proj1 Hq)) as HF.
  set (F := qfactor q (qtotal q n) i) in *.
  set (v := qvertex q (qtotal q n) i) in *.
  set (c := qconst q i) in *.
  split; intros Hv.
  - assert (0 <= F * ((t2 - t1) * ((v - t1) + (v - t2)))) as H.
    { apply Qmult_le_0_compat; [exact HF|]. apply Qmult_le_0_compat; lra. }
    assert (F * ((t2 - t1) * ((v - t1) + (v - t2)))
            == F * (t1 - v) * (t1 - v) - F * (t2 - v) * (t2 - v)) as E by ring.
    lra.
  - assert (0 <= F * ((t2 - t1) * ((t1 - v) + (t2 - v)))) as H.
    { apply Qmult_le_0_compat; [exact HF|]. apply Qmult_le_0_compat; lra. }
    assert (F * ((t2 - t1) * ((t1 - v) + (t2 - v)))
            == F * (t2 - v) * (t2 - v) - F * (t1 - v) * (t1 - v)) as E by ring.
    lra.
Qed.

End EasingFacts.

(** ** The further properties at concrete arguments *)

Lemma bounce_count_least_witness :
  (2 <= numberOfBounces (precalculate (Fin (1#2)) 5))%nat
  /\ Num.gt (Num.pow (Fin (1#2)) (2 * (5 - 1))) (Fin (1#100)) = false
  /\ Num.gt (Num.pow (Fin (1#2)) (2 * (4 - 1))) (Fin (1#100)) = true.
Proof.
  destruct (proj2 (@bounce_count_least runtime0 (VNum (Fin (1#2))) (VNum (Fin (1#100)))
                     (precalculate (Fin (1#2)) 5) returns_default) eq_refl)
    as (H1 & H2 & H3).
  split; [exact H1|]. split; [exact H2|].
  apply (H3 4%nat). cbn. lia.
Defined.

Lemma lower_threshold_more_bounces_witness :
  (numberOfBounces (precalculate (Fin (1#2)) 3)
   <= numberOfBounces (precalculate (Fin (1#2)) 5))%nat.
Proof.
  apply (@lower_threshold_more_bounces runtime0 VUndefined (1#100) (1#10)).
  - lra.
  - lra.
  - lra.
  - exists 6%nat. reflexivity.
  - exists 4%nat. reflexivity.
Defined.

Lemma higher_decay_more_bounces_witness :
  (numberOfBounces (precalculate (Fin (1#4)) 3)
   <= numberOfBounces (precalculate (Fin (1#2)) 5))%nat.
Proof.
  apply (@higher_decay_more_bounces runtime0 (1#4) (1#2) (VNum (Fin (1#100)))).
  - lra.
  - lra.
  - lra.
  - reflexivity.
  - exists 4%nat. reflexivity.
  - exists 6%nat. reflexivity.
Defined.

Lemma bounce_count_bound_witness :
  (numberOfBounces (precalculate (Fin (1#2)) 5)
   <= Z.to_nat (Qceiling (1 / ((1#100) * (1 - (1#2))))) + 1)%nat.
Proof.
  apply (@bounce_count_bound runtime0 (1#2) (1#100)); [lra | lra |].
  exact returns_default.
Defined.

Lemma table_lengths_witness :
  let p := precalculate (Fin (1#2)) 5 in
  List.length (timeBreakPoints (tables p)) = S (numberOfBounces p)
  /\ List.length (timeHalfwayPoints (tables p)) = S (numberOfBounces p)
  /\ List.length (normalisingFactors (tables p)) = S (numberOfBounces p)
  /\ List.length (normalisingConstants (tables p)) = S (numberOfBounces p)
  /\ lastBreakPoint (tables p)
     = arr_get (timeBreakPoints (tables p)) (numberOfBounces p).
Proof.
  apply (@table_lengths runtime0 (VNum (Fin (1#2))) (VNum (Fin (1#100)))).
  exact returns_default.
Defined.

Lemma total_time_geometric_witness :
  let p := precalculate (Fin (1#2)) 5 in
  exists T,
    totalTime p = Fin T
    /\ T * (1 - (1#2)) == 1 + (1#2) - 2 * Qpow (1#2) (S (numberOfBounces p))
    /\ 1 <= T
    /\ is_between (VNum (arr_get (timeBreakPoints (tables p)) 0))
         ((1 - (1#2)) / (1 + (1#2))) 1.
Proof.
  apply (@total_time_geometric runtime0 (1#2) (VNum (Fin (1#100))));
    [lra | reflexivity | exact returns_default].
Defined.

Lemma constant_scale_witness :
  let p := precalculate (Fin (1#2)) 5 in
  exists T,
    totalTime p = Fin T
    /\ forall i, (i <= numberOfBounces p)%nat ->
         is_number (VNum (arr_get (normalisingFactors (tables p)) i)) (T * T).
Proof.
  apply (@constant_scale runtime0 (1#2) (VNum (Fin (1#100))));
    [lra | reflexivity | exact returns_default].
Defined.

Lemma vertex_value_witness :
  let p := precalculate (Fin (1#2)) 5 in
  is_number (easing p (arr_get (timeHalfwayPoints (tables p)) 1))
    (1 - Qpow (1#2) (2 * 1))
  /\ forall t,
       Num.lt (Fin t) (arr_get (timeBreakPoints (tables p)) (1 - 1)) = false ->
       Num.lt (Fin t) (arr_get (timeBreakPoints (tables p)) 1) = true ->
       is_between (easing p (Fin t)) (1 - Qpow (1#2) (2 * 1)) 1.
Proof.
  apply (@vertex_value runtime0 (1#2) (VNum (Fin (1#100))));
    [lra | reflexivity | exact returns_default | cbn; lia].
Defined.

Lemma impact_only_at_breakpoints_witness :
  let p := precalculate (Fin (1#2)) 5 in
  is_number (easing p (Fin (16#47))) 1
  <-> exists i,
        (i <= numberOfBounces p)%nat
        /\ Num.eq (arr_get (timeBreakPoints (tables p)) i) (Fin (16#47)).
Proof.
  apply (@impact_only_at_breakpoints runtime0 (1#2) (VNum (Fin (1#100))));
    [lra | reflexivity | exact returns_default | lra].
Defined.

Lemma above_one_undefined_witness :
  (forall t, 1 < t -> easing (precalculate (Fin (1#2)) 5) (Fin t) = VUndefined)
  /\ (forall p' : profile, easing p' NaN = VUndefined /\ easing p' PInf = VUndefined).
Proof.
  apply (@above_one_undefined runtime0 (1#2) (VNum (Fin (1#100))));
    [lra | reflexivity | exact returns_default].
Defined.

Lemma initial_fall_witness :
  let p := precalculate (Fin (1#2)) 5 in
  exists T,
    totalTime p = Fin T
    /\ forall t, t * T < 1 -> is_number (easing p (Fin t)) (t * T * (t * T)).
Proof.
  apply (@initial_fall runtime0 (1#2) (VNum (Fin (1#100))));
    [lra | reflexivity | exact returns_default].
Defined.

Lemma nonpositive_decay_square_witness :
  is_number (easing (precalculate (Fin 0) 2) (Fin (1#2))) ((1#2) * (1#2)).
Proof.
  apply (@nonpositive_decay_square runtime0 (-2#10) VUndefined); [lra | | lra].
  exists 3%nat. reflexivity.
Defined.

Lemma bounce_symmetry_witness :
  let p := precalculate (Fin (1#2)) 5 in
  exists T v,
    totalTime p = Fin T
    /\ arr_get (timeHalfwayPoints (tables p)) 1 = Fin v
    /\ forall u, 0 <= u -> u * T < Qpow (1#2) 1 ->
         exists y,
           is_number (easing p (Fin (v - u))) y
           /\ is_number (easing p (Fin (v + u))) y.
Proof.
  apply (@bounce_symmetry runtime0 (1#2) (VNum (Fin (1#100))));
    [lra | reflexivity | exact returns_default | cbn; lia].
Defined.

Lemma segment_monotone_witness :
  let p := precalculate (Fin (1#2)) 5 in
  exists v y1 y2,
    arr_get (timeHalfwayPoints (tables p)) 1 = Fin v
    /\ easing p (Fin (4#10)) = VNum (Fin y1)
    /\ easing p (Fin (5#10)) = VNum (Fin y2)
    /\ (5#10 <= v -> y2 <= y1)
    /\ (v <= 4#10 -> y1 <= y2).
Proof.
  apply (@segment_monotone runtime0 (1#2) (VNum (Fin (1#100))));
    [lra | reflexivity | exact returns_default | cbn; lia | lra
     | right; reflexivity | reflexivity].
Defined.

(** ** Further properties: the geometry of the segments *)

Section SegmentFacts.

Context `{rt : Runtime}.

(** In exact arithmetic: for a decay ratio [q] of [0,1), breakpoint [i]
    times the total time is the total time of a profile of [i] bounces:
    with [T] the total time, [breakpoints[i] T (1 - q) = 1 + q - 2 q^(i+1)]. *)
Theorem breakpoint_closed_form (q : Q) (b : jsval) (p : profile) (i : nat) :
  0 <= q < 1 -> truthy b = true ->
  returns (VNum (Fin q)) b p ->
  (i <= numberOfBounces p)%nat ->
  exists T bi,
    totalTime p = Fin T
    /\ arr_get (timeBreakPoints (tables p)) i = Fin bi
    /\ bi * T * (1 - q) == 1 + q - 2 * Qpow q (S i).
Proof.
  intros Hq Htr Hb Hi. apply (returns_builds q b p Hq Htr) in Hb.
  closed_profile Hq Hb n.
  exists (qtotal q n), (qbreak q (qtotal q n) i).
  split; [reflexivity|]. split; [apply get_break; assumption|].
  rewrite (qbreak_total q _ (qtotal_pos q n Hq) i). apply qtotal_geometric.
Qed.

(** In exact arithmetic: for a decay ratio [q] of [0,1), segment [i] of a
    returned profile lasts [2 q^i / T], with [T] the total time, and its
    vertex time is the midpoint of its two breakpoints. *)
Theorem segment_geometry (q : Q) (b : jsval) (p : profile) (i : nat) :
  0 <= q < 1 -> truthy b = true ->
  returns (VNum (Fin q)) b p ->
  (1 <= i <= numberOfBounces p)%nat ->
  exists T lo hi v,
    totalTime p = Fin T
    /\ arr_get (timeBreakPoints (tables p)) (i - 1) = Fin lo
    /\ arr_get (timeBreakPoints (tables p)) i = Fin hi
    /\ arr_get (timeHalfwayPoints (tables p)) i = Fin v
    /\ (hi - lo) * T == 2 * Qpow q i
    /\ v == (lo + hi) / 2.
Proof.
  intros Hq Htr Hb Hi. apply (returns_builds q b p Hq Htr) in Hb.
  closed_profile Hq Hb n.
  destruct i as [|j]; [lia|]. replace (S j - 1)%nat with j by lia.
  pose proof (qtotal_pos q n Hq) as HT.
  exists (qtotal q n), (qbreak q (qtotal q n) j), (qbreak q (qtotal q n) (S j)),
    (qvertex q (qtotal q n) (S j)).
  split; [reflexivity|]. split; [apply get_break; lia|].
  split; [apply get_break; lia|]. split; [apply get_vertex; lia|].
  split.
  - cbn [qbreak]. field. lra.
  - cbn [qvertex]. unfold qhalf. field.
Qed.

(** In exact arithmetic: for a decay ratio of (0,1) the parabolas of two
    adjacent segments take the same value, 1, at the breakpoint between
    them. *)
Theorem segments_join (q : Q) (b : jsval) (p : profile) (i : nat) :
  0 < q < 1 -> truthy b = true ->
  returns (VNum (Fin q)) b p ->
  (i < numberOfBounces p)%nat ->
  exists bi y1 y2,
    arr_get (timeBreakPoints (tables p)) i = Fin bi
    /\ parabola (tables p) i (Fin bi) = Fin y1
    /\ parabola (tables p) (S i) (Fin bi) = Fin y2
    /\ y1 == 1 /\ y2 == 1.
Proof.
  intros Hq Htr Hb Hi. assert (0 <= q < 1) as Hq' by lra.
  apply (returns_builds q b p Hq' Htr) in Hb.
  closed_profile Hq' Hb n.
  destruct (parabola_at_break q n i Hq') as (y1 & E1 & H1); [lia | left; apply Hq|].
  destruct (parabola_at_entry q n i (qbreak q (qtotal q n) i) Hq)
    as (y2 & E2 & H2); [lia | reflexivity|].
  exists (qbreak q (qtotal q n) i), y1, y2.
  split; [apply get_break; lia|]. repeat split; assumption.
Qed.

End SegmentFacts.

Lemma breakpoint_closed_form_witness :
  let p := precalculate (Fin (1#2)) 5 in
  exists T bi,
    totalTime p = Fin T
    /\ arr_get (timeBreakPoints (tables p)) 3 = Fin bi
    /\ bi * T * (1 - (1#2)) == 1 + (1#2) - 2 * Qpow (1#2) 4.
Proof.
  apply (@breakpoint_closed_form runtime0 (1#2) (VNum (Fin (1#100))));
    [lra | reflexivity | exact returns_default | cbn; lia].
Defined.

Lemma segment_geometry_witness :
  let p := precalculate (Fin (1#2)) 5 in
  exists T lo hi v,
    totalTime p = Fin T
    /\ arr_get (timeBreakPoints (tables p)) (2 - 1) = Fin lo
    /\ arr_get (timeBreakPoints (tables p)) 2 = Fin hi
    /\ arr_get (timeHalfwayPoints (tables p)) 2 = Fin v
    /\ (hi - lo) * T == 2 * Qpow (1#2) 2
    /\ v == (lo + hi) / 2.
Proof.
  apply (@segment_geometry runtime0 (1#2) (VNum (Fin (1#100))));
    [lra | reflexivity | exact returns_default | cbn; lia].
Defined.

Lemma segments_join_witness :
  let p := precalculate (Fin (1#2)) 5 in
  exists bi y1 y2,
    arr_get (timeBreakPoints (tables p)) 2 = Fin bi
    /\ parabola (tables p) 2 (Fin bi) = Fin y1
    /\ parabola (tables p) 3 (Fin bi) = Fin y2
    /\ y1 == 1 /\ y2 == 1.
Proof.
  apply (@segments_join runtime0 (1#2) (VNum (Fin (1#100))));
    [lra | reflexivity | exact returns_default | cbn; lia].
Defined.
